(** * Nuitka standard plugins (gevent, torch) and the pybench Dict benchmark

  A shallow embedding of

  - [nuitka/plugins/standard/GeventPlugin.py],
  - [nuitka/plugins/standard/TorchPlugin.py],
  - [tests/benchmarks/pybench/Dict.py],

  together with the properties the specification states about them.

  Python values are modelled as follows.  Module names, package names and
  file-system paths are [string]s: the bytes of a Python 2 byte string, or
  of a Python 3 string in UTF-8.  The separators, extensions and the word
  [torch] that the plugins look for are ASCII, so that prefix and suffix
  tests, [find] and a slice from a found index mean the same on these bytes
  as on code points; where bytes and code points part ways ([lower], a
  slice counted from the end) the model says so.  Source text is a list of
  Unicode code points, because [str.splitlines] is sensitive to code points
  beyond one byte; a value that may be [None] is an [option]; dictionaries
  are [gmap]s; a call that may raise returns a [result]. *)

From Stdlib Require Import ZArith NArith Lia Ascii DecimalString.
From stdpp Require Import base tactics option list gmap strings.

Local Open Scope Z_scope.

(** ** Results, exceptions and a state monad for effectful code *)

Module Py.

(** The exceptions the modelled code can raise.  [OSError] stands for every
    failure of a file operation. *)
Inductive exn := ImportError | AttributeError | OSError | KeyError.

(** The outcome of a call: a returned value or a raised exception. *)
Inductive result (A : Type) :=
| Ret (a : A)
| Raise (e : exn).
Arguments Ret {A} a.
Arguments Raise {A} e.

(** A computation over a mutable store [S] that may raise.  The store is
    returned in both cases: what was mutated before an exception stays
    mutated. *)
Definition M (S A : Type) : Type := S -> result A * S.

#[export] Instance M_ret {S} : MRet (M S) := fun A a s => (Ret a, s).

#[export] Instance M_bind {S} : MBind (M S) := fun A B k m s =>
  match m s with
  | (Ret a, s') => k a s'
  | (Raise e, s') => (Raise e, s')
  end.

Definition get {S} : M S S := fun s => (Ret s, s).
Definition modify {S} (f : S -> S) : M S unit := fun s => (Ret tt, f s).

(** Lift a pure result into a computation. *)
Definition lift {S A} (r : result A) : M S A := fun s => (r, s).

(** [for x in l: body(x)] *)
Fixpoint for_ {S A} (l : list A) (body : A -> M S unit) : M S unit :=
  match l with
  | [] => mret tt
  | x :: l' => body x ;; for_ l' body
  end.

(** [for i in xrange(n): body], for a body that does not read [i]. *)
Definition for_range {S} (n : N) (body : M S unit) : M S unit :=
  N.iter n (fun rest => body ;; rest) (mret tt).

End Py.

Import Py.

(** ** Python string primitives *)

Module PyStr.

(** [s.startswith(p)] *)
Fixpoint startswith (s p : string) : bool :=
  match p, s with
  | EmptyString, _ => true
  | String _ _, EmptyString => false
  | String a p', String b s' =>
      if Ascii.eqb a b then startswith s' p' else false
  end.

(** [s[n:]] for a natural [n] (the form [s[len(t):]]). *)
Fixpoint drop (n : nat) (s : string) : string :=
  match n, s with
  | O, _ => s
  | S _, EmptyString => EmptyString
  | S n', String _ s' => drop n' s'
  end.

(** [s[:n]] for a natural [n]. *)
Fixpoint take (n : nat) (s : string) : string :=
  match n, s with
  | O, _ => EmptyString
  | S _, EmptyString => EmptyString
  | S n', String c s' => String c (take n' s')
  end.

(** [s.endswith(p)]: [p] is no longer than [s] and the last [len(p)]
    characters of [s] are [p]. *)
Definition endswith (s p : string) : bool :=
  if (String.length p <=? String.length s)%nat
  then String.eqb (drop (String.length s - String.length p) s) p
  else false.

(** [s.endswith((p1, ..., pn))]: a tuple argument tests each member. *)
Definition endswith_any (s : string) (ps : list string) : bool :=
  existsb (endswith s) ps.

(** [s.find(sub)]: the lowest index where [sub] occurs, [-1] if none. *)
Fixpoint find (s sub : string) : Z :=
  if startswith s sub then 0
  else match s with
       | EmptyString => -1
       | String _ s' =>
           let r := find s' sub in
           if r <? 0 then -1 else r + 1
       end.

(** [s[i:]] for an arbitrary integer [i]: a negative index counts from
    the end, and the start is clamped to the string.  The index counts
    bytes.  From an index that [find] returned for an ASCII word this is
    the same text as in a Python 3 string, where indices count code
    points; counted from the end it is the same text as long as the
    characters counted are ASCII. *)
Definition slice_from (i : Z) (s : string) : string :=
  let n := Z.of_nat (String.length s) in
  let i' := if i <? 0 then Z.max 0 (i + n) else i in
  drop (Z.to_nat i') s.

(** [c.lower()] on one byte: only the ASCII capitals change. *)
Definition lower_ascii (c : ascii) : ascii :=
  let n := Ascii.N_of_ascii c in
  if ((65 <=? n) && (n <=? 90))%N then Ascii.ascii_of_N (n + 32) else c.

(** [s.lower()] of a byte string in the C locale, which is also what
    [lower] does to a Python 3 string of ASCII characters: only the ASCII
    capitals change.  Beyond ASCII, [lower] depends on the interpreter (see
    [Interpreter] below). *)
Fixpoint lower_c_locale (s : string) : string :=
  match s with
  | EmptyString => EmptyString
  | String c s' => String (lower_ascii c) (lower_c_locale s')
  end.

(** Every character of [s] is ASCII. *)
Fixpoint is_ascii (s : string) : bool :=
  match s with
  | EmptyString => true
  | String c s' => (Ascii.N_of_ascii c <? 128)%N && is_ascii s'
  end.

(** [s.split(sep)] for a one-character separator: every occurrence of
    [sep] ends a piece, and the empty string yields one empty piece. *)
Fixpoint split (sep : ascii) (s : string) : list string :=
  match s with
  | EmptyString => [EmptyString]
  | String c s' =>
      if Ascii.eqb c sep then EmptyString :: split sep s'
      else match split sep s' with
           | [] => [String c EmptyString]
           | piece :: rest => String c piece :: rest
           end
  end.

(** [c in s] for a character [c]. *)
Fixpoint has_char (c : ascii) (s : string) : bool :=
  match s with
  | EmptyString => false
  | String b s' => Ascii.eqb b c || has_char c s'
  end.

(** [x in l] for a list of strings. *)
Definition contains (l : list string) (x : string) : bool :=
  existsb (String.eqb x) l.

(** Truth value of a string that may be [None]. *)
Definition truthy (v : option string) : bool :=
  match v with
  | None => false
  | Some s => negb (String.eqb s "")
  end.

End PyStr.

(** ** The interpreter *)

Module Interp.

(** What [str.lower] does is decided by the interpreter that runs the
    plugin: on a Python 2 byte string the C library lower-cases byte by
    byte under the current locale, on a Python 3 string the Unicode case
    mapping applies (which can even change the length).  The model takes
    the method as it is, as a function on [string]s. *)
Class Interpreter := { str_lower : string -> string }.

(** Python 2 in the C locale. *)
Definition c_locale : Interpreter :=
  {| str_lower := PyStr.lower_c_locale |}.

End Interp.

Import Interp.

(** ** Source text and its lines *)

Module PyText.

(** Source text: a sequence of Unicode code points. *)
Definition text := list N.

Definition of_string (s : string) : text :=
  map Ascii.N_of_ascii (String.list_ascii_of_string s).

(** The two string types a module's source can have: a byte string under
    Python 2, a Unicode string under Python 3. *)
Inductive version := Python2 | Python3.

Definition LF : N := 10.
Definition CR : N := 13.

(** Line boundaries of [splitlines]: a Python 2 byte string breaks at LF and
    CR only; a Python 3 string also at VT, FF, FS, GS, RS, NEL, LS and PS. *)
Definition is_linebreak (v : version) (c : N) : bool :=
  match v with
  | Python2 => existsb (N.eqb c) [LF; CR]
  | Python3 =>
      existsb (N.eqb c)
        [LF; 11; 12; CR; 28; 29; 30; 133; 8232; 8233]%N
  end.

(** A text without line boundary. *)
Definition unbroken (v : version) (l : text) : Prop :=
  Forall (fun c => is_linebreak v c = false) l.

(** [s.splitlines()]: the lines of [s] without their terminators; CR LF is
    one terminator, and a terminator at the very end opens no further
    line. *)
Fixpoint splitlines (v : version) (s : text) : list text :=
  match s with
  | [] => []
  | c :: s' =>
      if is_linebreak v c then
        [] :: (if N.eqb c CR
               then match s' with
                    | c' :: s'' =>
                        if N.eqb c' LF then splitlines v s''
                        else splitlines v s'
                    | [] => splitlines v s'
                    end
               else splitlines v s')
      else match splitlines v s' with
           | [] => [[c]]
           | line :: rest => (c :: line) :: rest
           end
  end.

(** The text has a last line that lacks its terminating LF. *)
Fixpoint unterminated (s : text) : bool :=
  match s with
  | [] => false
  | [c] => negb (N.eqb c LF)
  | _ :: s' => unterminated s'
  end.

(** LF is the only line boundary that occurs in the text. *)
Definition only_LF (v : version) (s : text) : Prop :=
  Forall (fun c => is_linebreak v c = true -> c = LF) s.

(** [sep.join(lines)] *)
Fixpoint join (sep : text) (lines : list text) : text :=
  match lines with
  | [] => []
  | [l] => l
  | l :: ls => l ++ sep ++ join sep ls
  end.

End PyText.

(** ** The host compiler as seen by a plugin *)

Module Host.

(** What a hook does besides returning: log lines, the unused-plugin
    warning of [UserPluginBase], and file operations. *)
Inductive event :=
| Info (msg : string)
| WarnUnusedPlugin (plugin_name msg : string)
| MakeDirs (path : string)
| Copy (src dst : string).

(** A module object, of which the plugins only ask the full name. *)
Record module_ := { getFullName : string }.

End Host.

Import Host.

(** ** GeventPlugin.py *)

Module GeventPlugin.

(** The qualified name computed at the head of [onModuleEncounter].
    [module_package] may be [None] or empty, both of which are false. *)
Definition full_name (module_name : string) (module_package : option string)
  : string :=
  if PyStr.truthy module_package then
    let pkg := default "" module_package in
    let full := pkg +:+ "." +:+ module_name in
    if PyStr.startswith module_name pkg then
      let t := PyStr.drop (String.length pkg) module_name in
      if PyStr.startswith t "." then module_name else full
    else if PyStr.endswith pkg module_name then pkg
    else full
  else module_name.

(** [onModuleEncounter]: [Some (true, reason)] is the tuple
    [(True, reason)], [None] is Python's [None]. *)
Definition onModuleEncounter
    (module_filename module_name : string) (module_package : option string)
    (module_kind : string) : option (bool * string) :=
  if PyStr.startswith (full_name module_name module_package) "gevent"
  then Some (true, "everything from gevent")
  else None.

(** [decideCompilation]; [os] is the value of [getOS()], a helper of
    [nuitka.utils.Utils]. *)
Definition decideCompilation (os : string) (module_name source_ref : string)
  : option string :=
  if PyStr.startswith module_name "gevent" && String.eqb os "Windows"
  then Some "bytecode"
  else None.

(** [onModuleSourceCode]: the new source text and the line logged. *)
Definition onModuleSourceCode (v : PyText.version)
    (module_name : string) (source_code : PyText.text)
  : PyText.text * list event :=
  if negb (String.eqb module_name "gevent._config") then (source_code, [])
  else
    let source_lines := PyText.splitlines v source_code in
    let source_lines :=
      source_lines ++ [PyText.of_string "config.track_greenlet_tree = False"] in
    (PyText.join [PyText.LF] source_lines,
     [Info " 'gevent' plugin: Greenlet tree tracking switched off"]).

End GeventPlugin.

Module GeventPluginDetector.

Definition plugin_name : string := "gevent".

(** [isRelevant]; the argument is [Options.isStandaloneMode()]. *)
Definition isRelevant (standalone : bool) : bool := standalone.

(** [onModuleDiscovered] returns [None]; its effect is the warning. *)
Definition onModuleDiscovered (module : module_) : list event :=
  let full_name := getFullName module in
  if PyStr.startswith full_name "gevent"
  then [WarnUnusedPlugin plugin_name "gevent support."]
  else [].

End GeventPluginDetector.

(** ** os.path *)

Module OsPath.

(** The functions of [os.path] the torch plugin calls.  Which module is
    behind [os.path] depends on the platform ([posixpath] or [ntpath]). *)
Class OsPath := {
  join : string -> string -> string;
  dirname : string -> string;
  basename : string -> string
}.

(** [posixpath], after CPython's [Lib/posixpath.py]. *)
Module Posix.

Definition sep : ascii := "/"%char.

(** [(p[:i], p[i:])] for [i = p.rfind("/") + 1]. *)
Fixpoint head_tail (p : string) : string * string :=
  match p with
  | EmptyString => (EmptyString, EmptyString)
  | String c p' =>
      let '(h, t) := head_tail p' in
      if negb (String.eqb h "") then (String c h, t)
      else if Ascii.eqb c sep then (String c EmptyString, t)
      else (EmptyString, String c t)
  end.

(** [s.rstrip("/")] *)
Fixpoint rstrip (s : string) : string :=
  match s with
  | EmptyString => EmptyString
  | String c s' =>
      let r := rstrip s' in
      if String.eqb r "" && Ascii.eqb c sep then EmptyString else String c r
  end.

(** [s == "/" * len(s)] *)
Fixpoint all_sep (s : string) : bool :=
  match s with
  | EmptyString => true
  | String c s' => Ascii.eqb c sep && all_sep s'
  end.

Definition join (a b : string) : string :=
  if PyStr.startswith b "/" then b
  else if String.eqb a "" || PyStr.endswith a "/" then a +:+ b
  else a +:+ "/" +:+ b.

Definition dirname (p : string) : string :=
  let head := fst (head_tail p) in
  if negb (String.eqb head "") && negb (all_sep head)
  then rstrip head else head.

Definition basename (p : string) : string := snd (head_tail p).

#[export] Instance os_path : OsPath :=
  {| OsPath.join := join; OsPath.dirname := dirname;
     OsPath.basename := basename |}.

End Posix.

End OsPath.

Import OsPath.

(** ** TorchPlugin.py *)

Module TorchPlugin.

(** A module loader as returned by [pkgutil.find_loader]. *)
Record loader := { get_filename : string -> result (option string) }.

(** What the plugin reads from its surroundings: the import machinery and
    directory listings ([os.listdir]). *)
Record environment := {
  find_loader : string -> result (option loader);
  listdir : string -> result (list string)
}.

(** The mutable store: the plugin's one-shot flag [self.files_copied], the
    directories and regular files that exist, and the effects so far. *)
Record state := {
  files_copied : bool;
  dirs : gset string;
  files : gset string;
  log : list event
}.

(** [TorchPlugin.__init__] *)
Definition init (dirs0 files0 : gset string) : state :=
  {| files_copied := false; dirs := dirs0; files := files0; log := [] |}.

Definition set_files_copied (b : bool) : M state unit :=
  modify (fun s => {| files_copied := b; dirs := dirs s; files := files s;
                      log := log s |}).

Definition emit (e : event) : M state unit :=
  modify (fun s => {| files_copied := files_copied s; dirs := dirs s;
                      files := files s; log := log s ++ [e] |}).

(** [logging.info] *)
Definition info (msg : string) : M state unit := emit (Info msg).

(** [os.path.isdir] and [os.path.exists] *)
Definition is_dir (s : state) (p : string) : bool := bool_decide (p ∈ dirs s).
Definition path_exists (s : state) (p : string) : bool :=
  bool_decide (p ∈ dirs s) || bool_decide (p ∈ files s).

Section WithOsPath.

Context {os_path : OsPath} {interp : Interpreter}.

(** The proper ancestors of a path, nearest first. *)
Fixpoint parents (fuel : nat) (p : string) : list string :=
  match fuel with
  | O => []
  | S k =>
      let h := dirname p in
      if String.eqb h "" || String.eqb h p then [] else h :: parents k h
  end.

Definition ancestors (p : string) : list string :=
  parents (String.length p) p.

(** [os.makedirs(p)]: creates [p] and every missing ancestor; fails when
    [p] is empty or exists already, or when an ancestor is a regular
    file. *)
Definition makedirs (p : string) : M state unit := fun s =>
  if String.eqb p "" || path_exists s p
     || existsb (fun a => bool_decide (a ∈ files s)) (ancestors p)
  then (Raise OSError, s)
  else (Ret tt,
        {| files_copied := files_copied s;
           dirs := dirs s ∪ {[ p ]} ∪ list_to_set (ancestors p);
           files := files s;
           log := log s ++ [MakeDirs p] |}).

(** [shutil.copy(src, dst)]: [src] must be a regular file; when [dst] is a
    directory the file goes into it under its own name; source and target
    must not be the same file, which for the path names of this store
    means the same path; the target must not be a directory, and the
    directory part of the target must exist.  Every failure is an
    [OSError] that leaves the store as it is, so that the order of the
    checks does not show. *)
Definition shutil_copy (src dst : string) : M state unit := fun s =>
  if negb (bool_decide (src ∈ files s)) then (Raise OSError, s)
  else
    let target := if is_dir s dst then join dst (basename src) else dst in
    if String.eqb src target then (Raise OSError, s)
    else if is_dir s target then (Raise OSError, s)
    else if String.eqb (dirname target) "" || is_dir s (dirname target)
    then (Ret tt,
          {| files_copied := files_copied s; dirs := dirs s;
             files := files s ∪ {[ target ]};
             log := log s ++ [Copy src dst] |})
    else (Raise OSError, s).

Variable env : environment.

(** [get_module_file_attribute]; [not attr] holds for [None] and for the
    empty string. *)
Definition get_module_file_attribute (package : string) : result string :=
  match find_loader env package with
  | Raise e => Raise e
  | Ret None => Raise AttributeError
  | Ret (Some loader) =>
      match get_filename loader package with
      | Raise e => Raise e
      | Ret attr =>
          match attr with
          | None => Raise ImportError
          | Some a => if String.eqb a "" then Raise ImportError else Ret a
          end
      end
  end.

Definition recognized : list string := [".dll"; ".so"; ".dylib"; ".h"].

(** The loop of [get_torch_core_binaries] over the directory entries. *)
Definition collect (extra_dll : string) (netto_bins : list string)
  : list (string * string) :=
  fold_left
    (fun binaries f =>
       if negb (PyStr.endswith_any f recognized) then binaries
       else binaries ++ [(join extra_dll f, ".")])
    netto_bins [].

Definition get_torch_core_binaries : M state (list (string * string)) :=
  attr ← lift (get_module_file_attribute "torch");
  let extra_dll := join (dirname attr) "lib" in
  s ← get;
  if negb (is_dir s extra_dll) then mret []
  else
    netto_bins ← lift (listdir env extra_dll);
    mret (collect extra_dll netto_bins).

(** [onModuleEncounter] *)
Definition onModuleEncounter
    (module_filename module_name : string) (module_package : option string)
    (module_kind : string) : option (bool * string) :=
  if bool_decide (module_package = Some "torchvision.transforms")
  then Some (true, "Basic torchvision module")
  else if bool_decide (module_package = Some "PIL")
          && PyStr.contains
               ["Image"; "ImageColor"; "ImageOps"; "ImageEnhance";
                "ImageStat"; "ImageFilter"] module_name
  then Some (true, "Required by torchvision")
  else None.

(** [" Copied %i %s." % (bin_total, word)] *)
Definition copied_msg (bin_total : nat) : string :=
  " Copied " +:+ NilEmpty.string_of_uint (Nat.to_uint bin_total) +:+ " "
  +:+ (if (bin_total <? 2)%nat then "binary" else "binaries") +:+ ".".

(** One round of the copy loop of [considerExtraDlls]. *)
Definition copy_binary (dist_dir : string) (f : string * string)
  : M state unit :=
  let bin_file := str_lower (fst f) in
  let idx := PyStr.find bin_file "torch" in
  let back_end := PyStr.slice_from idx bin_file in
  let tar_file := join dist_dir back_end in
  s ← get;
  (if negb (path_exists s (dirname tar_file))
   then makedirs (dirname tar_file) else mret tt);;
  shutil_copy bin_file tar_file.

(** [considerExtraDlls]; the returned [tt] is the empty tuple. *)
Definition considerExtraDlls (dist_dir : string) (module : module_)
  : M state unit :=
  s ← get;
  if files_copied s then mret tt
  else if String.eqb (getFullName module) "torch" then
    set_files_copied true;;
    binaries ← get_torch_core_binaries;
    let bin_total := length binaries in
    if (bin_total =? 0)%nat then mret tt
    else
      info "";;
      info " Copying files from 'torch/lib':";;
      for_ binaries (copy_binary dist_dir);;
      info (copied_msg bin_total);;
      mret tt
  else mret tt.

End WithOsPath.

(** A run of calls of [considerExtraDlls] on one plugin instance: the
    outcome of each call and the store it leaves behind. *)
Fixpoint run_calls {os_path : OsPath} {interp : Interpreter}
    (env : environment) (calls : list (string * module_)) (s : state)
  : list (result unit * state) :=
  match calls with
  | [] => []
  | (dist_dir, module) :: rest =>
      let '(r, s') := considerExtraDlls env dist_dir module s in
      (r, s') :: run_calls env rest s'
  end.

(** The rounds of the copy loop of [considerExtraDlls] as run from the
    store [s]: for each file the loop gets to, the store before its round,
    the outcome of the round and the store after it.  A round that raises
    is the last one. *)
Fixpoint rounds {os_path : OsPath} {interp : Interpreter}
    (dist_dir : string) (binaries : list (string * string)) (s : state)
  : list ((string * string) * state * result unit * state) :=
  match binaries with
  | [] => []
  | f :: rest =>
      let '(r, s') := copy_binary dist_dir f s in
      (f, s, r, s')
      :: match r with
         | Ret _ => rounds dist_dir rest s'
         | Raise _ => []
         end
  end.

End TorchPlugin.

Module TorchPluginDetector.

Definition plugin_name : string := "torch".

Definition isRelevant (standalone : bool) : bool := standalone.

Definition onModuleDiscovered (module : module_) : list event :=
  let full_name := PyStr.split "."%char (getFullName module) in
  if PyStr.contains full_name "torch"
  then [WarnUnusedPlugin plugin_name "torch support."]
  else [].

End TorchPluginDetector.

(** ** pybench/Dict.py: SimpleDictManipulation *)

Module SimpleDictManipulation.

(** The store is the dictionary [d]; the bound method [has_key] taken
    before the loop reads this same object. *)
Definition dict := gmap Z Z.

(** [d[k] = v] *)
Definition setitem (k v : Z) : M dict unit := modify (fun d => <[k:=v]> d).

(** [x = d[k]]: [KeyError] when [k] is absent. *)
Definition getitem (k : Z) : M dict Z := fun d =>
  match d !! k with
  | Some v => (Ret v, d)
  | None => (Raise KeyError, d)
  end.

(** [has_key(k)] *)
Definition has_key (k : Z) : M dict bool := fun d =>
  (Ret (bool_decide (is_Some (d !! k))), d).

(** [del d[k]]: [KeyError] when [k] is absent. *)
Definition delitem (k : Z) : M dict unit := fun d =>
  match d !! k with
  | Some _ => (Ret tt, delete k d)
  | None => (Raise KeyError, d)
  end.

Definition rounds : N := 100000.

(** The four groups of six statements that the loop body repeats. *)
Definition assignments : M dict unit :=
  setitem 0 3;; setitem 1 4;; setitem 2 5;;
  setitem 3 3;; setitem 4 4;; setitem 5 5.

Definition lookups : M dict unit :=
  getitem 0;; getitem 1;; getitem 2;;
  getitem 3;; getitem 4;; getitem 5;; mret tt.

Definition membership_tests : M dict unit :=
  has_key 0;; has_key 2;; has_key 4;;
  has_key 6;; has_key 8;; has_key 10;; mret tt.

Definition deletions : M dict unit :=
  delitem 0;; delitem 1;; delitem 2;;
  delitem 3;; delitem 4;; delitem 5.

Definition group : M dict unit :=
  assignments;; lookups;; membership_tests;; deletions.

(** The body of the [for] loop: the group, five times over. *)
Definition body : M dict unit :=
  group;; group;; group;; group;; group.

(** The dictionary before round [i] (counting from 0) of the loop, or the
    exception that ended an earlier round. *)
Definition before_round (i : N) : result unit * dict :=
  for_range i body ∅.

(** [test]: [d = {}] and then [self.rounds] rounds. *)
Definition test : result unit * dict := for_range rounds body ∅.

End SimpleDictManipulation.

(** ** A small installation to run the torch plugin on *)

Module Example.

Import TorchPlugin.

Definition torch_loader : loader :=
  {| get_filename := fun _ => Ret (Some "/site/torch/__init__.py") |}.

(** Only [torch] is installed; its [lib] directory holds two binaries, a
    header and a text file. *)
Definition env : environment :=
  {| find_loader := fun package =>
       if String.eqb package "torch" then Ret (Some torch_loader)
       else Ret None;
     listdir := fun d =>
       if String.eqb d "/site/torch/lib"
       then Ret ["c10.dll"; "readme.txt"; "torch.dll"; "thc.h"]
       else Raise OSError |}.

Definition start : state :=
  init {[ "/"; "/site"; "/site/torch"; "/site/torch/lib"; "/out" ]}
       {[ "/site/torch/__init__.py"; "/site/torch/lib/c10.dll";
          "/site/torch/lib/readme.txt"; "/site/torch/lib/torch.dll";
          "/site/torch/lib/thc.h" ]}.

Definition torch_module : module_ := {| getFullName := "torch" |}.
Definition other_module : module_ := {| getFullName := "torch.nn" |}.

End Example.

(** ** The notions the specification words its statements with *)

Module Spec.

(** The qualified full name of an encountered module as the specification
    describes it: the bare module name when there is no package, the module
    name when it already begins with the package followed by a dot, the
    package when the package ends with the module name, and package, dot
    and module name otherwise. *)
Definition qualified_name (module_name : string)
    (module_package : option string) : string :=
  match module_package with
  | None => module_name
  | Some pkg =>
      if String.eqb pkg "" then module_name
      else if PyStr.startswith module_name (pkg +:+ ".") then module_name
      else if PyStr.endswith pkg module_name then pkg
      else pkg +:+ "." +:+ module_name
  end.

(** A line terminator as [str.splitlines] knows them: CR LF, or a single
    line-boundary character. *)
Definition terminator (v : PyText.version) (t : PyText.text) : Prop :=
  t = [PyText.CR; PyText.LF]
  \/ exists c, t = [c] /\ PyText.is_linebreak v c = true.

(** The text [s] is made of the lines [ls]: each line is free of line
    boundaries and is followed by a terminator, which only a non-empty
    last line may lack; a CR that LF follows ends its line together with
    that LF. *)
Inductive lines_of (v : PyText.version)
  : PyText.text -> list PyText.text -> Prop :=
| lines_none : lines_of v [] []
| lines_last l : PyText.unbroken v l -> l <> [] -> lines_of v l [l]
| lines_more l t rest ls :
    PyText.unbroken v l ->
    terminator v t ->
    (t = [PyText.CR] -> forall rest', rest <> PyText.LF :: rest') ->
    lines_of v rest ls ->
    lines_of v (l ++ t ++ rest) (l :: ls).

(** [x] is one of the dot-separated components of the dotted name [s]:
    it occurs in [s] between the ends of [s] or dots. *)
Definition is_component (x s : string) : Prop :=
  exists pre post,
    s = pre +:+ x +:+ post
    /\ (pre = "" \/ exists pre', pre = pre' +:+ ".")
    /\ (post = "" \/ exists post', post = "." +:+ post').

(** [s] ends in one of the recognized file extensions. *)
Definition recognized_name (s : string) : Prop :=
  exists ext stem,
    In ext [".dll"; ".so"; ".dylib"; ".h"] /\ s = stem +:+ ext.

(** [back_end] is the tail of [bin_file] that begins at the first
    occurrence of [torch]. *)
Definition tail_from_torch (bin_file back_end : string) : Prop :=
  exists pre,
    bin_file = pre +:+ back_end
    /\ PyStr.startswith back_end "torch" = true
    /\ forall k, (k < String.length pre)%nat ->
         PyStr.startswith (PyStr.drop k bin_file) "torch" = false.

(** [a] is an intermediate directory of the directory [dir]: [dir] itself
    or one of the paths above it, as [os.path.dirname] leads to them one
    after the other. *)
Definition intermediate {os_path : OsPath} (a dir : string) : Prop :=
  a <> "" /\ exists n : nat, a = Nat.iter n dirname dir.

(** What one copied binary [f] amounts to, from store [s] to store [s']:
    the destination is the dist directory joined with the tail of the
    lower-cased source path from [torch] on; when the directory of the
    destination did not exist, [makedirs] ran first, so that every
    intermediate directory is in place when the copy is made; then comes
    the copy, and nothing else. *)
Definition copied {os_path : OsPath} {interp : Interpreter}
    (dist_dir : string) (f : string * string) (s s' : TorchPlugin.state)
  : Prop :=
  let bin_file := str_lower (fst f) in
  exists back_end s1,
    tail_from_torch bin_file back_end
    /\ let tar_file := join dist_dir back_end in
       let dir := dirname tar_file in
       (if TorchPlugin.path_exists s dir then s1 = s
        else TorchPlugin.makedirs dir s = (Ret tt, s1)
             /\ forall a, intermediate a dir -> a ∈ TorchPlugin.dirs s1)
       /\ TorchPlugin.shutil_copy bin_file tar_file s1 = (Ret tt, s')
       /\ TorchPlugin.log s'
          = TorchPlugin.log s
            ++ (if TorchPlugin.path_exists s dir then []
                else [MakeDirs dir])
            ++ [Copy bin_file tar_file].

(** A computation that leaves the one-shot flag as it found it, whatever
    its outcome. *)
Definition keeps_flag {A} (m : M TorchPlugin.state A) : Prop :=
  forall s,
    TorchPlugin.files_copied (snd (m s)) = TorchPlugin.files_copied s.

(** The trace entry of a call that returns the empty tuple and leaves the
    store [s] untouched. *)
Definition quiet (s : TorchPlugin.state) (call : string * module_)
  : result unit * TorchPlugin.state := (Ret tt, s).

Definition not_torch (call : string * module_) : Prop :=
  getFullName (snd call) <> "torch".

(** The six PIL modules that [torchvision.transforms.functional] imports. *)
Definition pil_modules : list string :=
  ["Image"; "ImageColor"; "ImageOps"; "ImageEnhance"; "ImageStat";
   "ImageFilter"].

End Spec.

(** ** pybench/Dict.py: the benchmarks that only store and read *)

(** Dictionary statements over any key type, for dictionaries with integer
    values. *)
Module PyDict.

Section WithKeys.

Context {K : Type} `{Countable K}.

(** [d[k] = v] *)
Definition setitem (k : K) (v : Z) : M (gmap K Z) unit :=
  modify (fun d => <[k:=v]> d).

(** [d[k]] as an expression statement: [KeyError] when [k] is absent. *)
Definition getitem (k : K) : M (gmap K Z) Z := fun d =>
  match d !! k with
  | Some v => (Ret v, d)
  | None => (Raise KeyError, d)
  end.

End WithKeys.

End PyDict.

Module DictWithStringKeys.

Import PyDict.

Definition rounds : N := 200000.

(** The six entries that every group of assignments stores. *)
Definition filled : gmap string Z :=
  list_to_map [("abc", 1); ("def", 2); ("ghi", 3);
               ("jkl", 4); ("mno", 5); ("pqr", 6)].

Definition assignments : M (gmap string Z) unit :=
  setitem "abc" 1;; setitem "def" 2;; setitem "ghi" 3;;
  setitem "jkl" 4;; setitem "mno" 5;; setitem "pqr" 6.

Definition lookups : M (gmap string Z) unit :=
  getitem "abc";; getitem "def";; getitem "ghi";;
  getitem "jkl";; getitem "mno";; getitem "pqr";; mret tt.

Definition group : M (gmap string Z) unit := assignments;; lookups.

(** The body of the [for] loop: the group, five times over. *)
Definition body : M (gmap string Z) unit :=
  group;; group;; group;; group;; group.

(** The loop of [test], started on the dictionary [d]. *)
Definition loop (n : N) (d : gmap string Z)
  : result unit * gmap string Z := for_range n body d.

(** [test]: [d = {}] and then [self.rounds] rounds. *)
Definition test : result unit * gmap string Z := loop rounds ∅.

End DictWithStringKeys.

Module DictWithIntegerKeys.

Import PyDict.

Definition rounds : N := 200000.

(** The six entries that every group of assignments stores. *)
Definition filled : gmap Z Z :=
  list_to_map [(1, 1); (2, 2); (3, 3); (4, 4); (5, 5); (6, 6)].

Definition assignments : M (gmap Z Z) unit :=
  setitem 1 1;; setitem 2 2;; setitem 3 3;;
  setitem 4 4;; setitem 5 5;; setitem 6 6.

Definition lookups : M (gmap Z Z) unit :=
  getitem 1;; getitem 2;; getitem 3;;
  getitem 4;; getitem 5;; getitem 6;; mret tt.

Definition group : M (gmap Z Z) unit := assignments;; lookups.

Definition body : M (gmap Z Z) unit :=
  group;; group;; group;; group;; group.

Definition loop (n : N) (d : gmap Z Z) : result unit * gmap Z Z :=
  for_range n body d.

Definition test : result unit * gmap Z Z := loop rounds ∅.

End DictWithIntegerKeys.

(** ** The gevent patch as a function of the source text *)

Module Patch.

(** The line that [GeventPlugin.onModuleSourceCode] appends. *)
Definition line : PyText.text :=
  PyText.of_string "config.track_greenlet_tree = False".

(** The text that the hook returns for the module [gevent._config]. *)
Definition patched (v : PyText.version) (source : PyText.text)
  : PyText.text :=
  fst (GeventPlugin.onModuleSourceCode v "gevent._config" source).

End Patch.

(** ** Reading the effects of the torch plugin *)

Module Trace.

Import TorchPlugin.

(** The copies among some events, in order. *)
Definition copies (evs : list event) : list event :=
  List.filter (fun e => match e with Copy _ _ => true | _ => false end) evs.

(** The directories that [makedirs] was called for, in order. *)
Definition made_dirs (evs : list event) : list string :=
  flat_map (fun e => match e with MakeDirs p => [p] | _ => [] end) evs.

(** The copy that one round of the loop asks for. *)
Definition copy_of {os_path : OsPath} {interp : Interpreter}
    (dist_dir : string) (f : string * string) : event :=
  let bin_file := str_lower (fst f) in
  Copy bin_file
    (join dist_dir
       (PyStr.slice_from (PyStr.find bin_file "torch") bin_file)).

(** A computation that removes no directory and no file and only adds to
    the log, whatever its outcome. *)
Definition grows {A} (m : M state A) : Prop :=
  forall s,
    dirs s ⊆ dirs (snd (m s))
    /\ files s ⊆ files (snd (m s))
    /\ log s `prefix_of` log (snd (m s)).

(** The store with the one-shot flag set. *)
Definition flagged (s : state) : state := snd (set_files_copied true s).

End Trace.

(** ** Installations where the torch plugin runs into trouble *)

Module Mishap.

Import TorchPlugin.

(** No [torch] to be found. *)
Definition no_torch : environment :=
  {| find_loader := fun _ => Ret None;
     listdir := fun _ => Raise OSError |}.

(** The binary is there under a name with capitals, as a file system that
    tells cases apart keeps it. *)
Definition capitals : state :=
  init {[ "/"; "/Site"; "/Site/torch"; "/Site/torch/lib"; "/out" ]}
       {[ "/Site/torch/lib/C10.dll" ]}.

(** A [lib] directory outside any path that mentions torch. *)
Definition elsewhere : state :=
  init {[ "/"; "/opt"; "/opt/lib"; "/out" ]} {[ "/opt/lib/c10.dll" ]}.

(** The package sits in a directory whose path does not mention torch;
    of its two binaries one has [torch] in its name, and the other is
    listed under a name with a capital. *)
Definition mixed_env : environment :=
  {| find_loader := fun _ =>
       Ret (Some {| get_filename := fun _ => Ret (Some "/opt/__init__.py") |});
     listdir := fun d =>
       if String.eqb d "/opt/lib" then Ret ["libtorch.so"; "C10.so"]
       else Raise OSError |}.

Definition mixed : state :=
  init {[ "/"; "/opt"; "/opt/lib"; "/out" ]}
       {[ "/opt/__init__.py"; "/opt/lib/libtorch.so"; "/opt/lib/C10.so" ]}.

End Mishap.

(** * Properties *)

(** ** The primitives on sample inputs, as Python evaluates them *)

Example split_samples :
  PyStr.split "." "torch.nn.functional" = ["torch"; "nn"; "functional"]
  /\ PyStr.split "." "a..b." = ["a"; ""; "b"; ""]
  /\ PyStr.split "." "" = [""].
Proof. by repeat split. Qed.

Example find_samples :
  PyStr.find "c:/site/torch/lib/torch.dll" "torch" = 8
  /\ PyStr.find "c:/site/lib" "torch" = -1
  /\ PyStr.slice_from 8 "c:/site/torch/lib/torch.dll" = "torch/lib/torch.dll"
  /\ PyStr.slice_from (-1) "c:/site/lib" = "b"
  /\ PyStr.lower_c_locale "C:/Site/Torch" = "c:/site/torch".
Proof. by repeat split. Qed.

Example splitlines_samples :
  PyText.splitlines PyText.Python3 [97; 10; 98; 13; 10; 13; 99; 10]%N
  = [[97]; [98]; []; [99]]%N
  /\ PyText.splitlines PyText.Python3 [97; 133; 98]%N = [[97]; [98]]%N
  /\ PyText.splitlines PyText.Python2 [97; 133; 98]%N = [[97; 133; 98]]%N
  /\ PyText.splitlines PyText.Python3 [10; 10]%N = [[]; []]
  /\ PyText.join [PyText.LF] [[97]; []; [98]]%N = [97; 10; 10; 98]%N.
Proof. by repeat split. Qed.

Example posixpath_samples :
  Posix.join "/out" "torch/lib/c10.dll" = "/out/torch/lib/c10.dll"
  /\ Posix.join "/out/" "torch" = "/out/torch"
  /\ Posix.join "" "torch" = "torch"
  /\ Posix.dirname "/out/torch/lib/c10.dll" = "/out/torch/lib"
  /\ Posix.dirname "torch.dll" = ""
  /\ Posix.dirname "//a" = "//"
  /\ Posix.basename "/out/torch/lib/c10.dll" = "c10.dll".
Proof. by repeat split. Qed.

Example full_name_samples :
  GeventPlugin.full_name "hub" (Some "gevent") = "gevent.hub"
  /\ GeventPlugin.full_name "gevent.hub" (Some "gevent") = "gevent.hub"
  /\ GeventPlugin.full_name "hub" (Some "gevent.hub") = "gevent.hub"
  /\ GeventPlugin.full_name "gevent" None = "gevent"
  /\ GeventPlugin.full_name "gevent" (Some "gevent") = "gevent.gevent".
Proof. by repeat split. Qed.

(** The first call for [torch] in the example installation: the header and
    the two binaries are copied, the text file is not. *)
Example considerExtraDlls_sample :
  let '(r, s) :=
    TorchPlugin.considerExtraDlls (os_path := Posix.os_path)
                                  (interp := c_locale)
      Example.env "/out" Example.torch_module Example.start in
  r = Ret tt
  /\ TorchPlugin.files_copied s = true
  /\ TorchPlugin.log s
     = [Info ""; Info " Copying files from 'torch/lib':";
        MakeDirs "/out/torch/lib";
        Copy "/site/torch/lib/c10.dll" "/out/torch/lib/c10.dll";
        Copy "/site/torch/lib/torch.dll" "/out/torch/lib/torch.dll";
        Copy "/site/torch/lib/thc.h" "/out/torch/lib/thc.h";
        Info " Copied 3 binaries."].
Proof. vm_compute. by repeat split. Qed.

(** ** Facts about the string primitives *)

Section StringFacts.

Implicit Types s p r : string.

Lemma append_cons c s p : String c s +:+ p = String c (s +:+ p).
Proof. reflexivity. Qed.

Lemma append_nil_l s : "" +:+ s = s.
Proof. reflexivity. Qed.

Lemma append_nil_r s : s +:+ "" = s.
Proof.
  induction s as [|c s IH]; [done |]. by rewrite append_cons, IH.
Qed.

Lemma append_assoc s p r : (s +:+ p) +:+ r = s +:+ (p +:+ r).
Proof.
  induction s as [|c s IH]; [done |]. by rewrite !append_cons, IH.
Qed.

Lemma length_append s p :
  String.length (s +:+ p) = (String.length s + String.length p)%nat.
Proof.
  induction s as [|c s IH]; [done |]. rewrite append_cons. simpl.
  by rewrite IH.
Qed.

Lemma drop_length_append s p : PyStr.drop (String.length s) (s +:+ p) = p.
Proof.
  induction s as [|c s IH]; [by destruct p |]. by rewrite append_cons.
Qed.

Lemma take_drop n s : PyStr.take n s +:+ PyStr.drop n s = s.
Proof.
  revert s; induction n as [|n IH]; intros [|c s]; simpl; try done.
  by rewrite append_cons, IH.
Qed.

Lemma startswith_cons a p b s :
  PyStr.startswith (String b s) (String a p)
  = if Ascii.eqb a b then PyStr.startswith s p else false.
Proof. reflexivity. Qed.

Lemma startswith_nil s : PyStr.startswith s "" = true.
Proof. by destruct s. Qed.

Lemma startswith_append p r : PyStr.startswith (p +:+ r) p = true.
Proof.
  induction p as [|c p IH]; [apply startswith_nil |].
  rewrite append_cons. simpl. by rewrite Ascii.eqb_refl.
Qed.

Lemma startswith_drop s p :
  PyStr.startswith s p = true -> s = p +:+ PyStr.drop (String.length p) s.
Proof.
  revert s; induction p as [|c p IH]; intros s; simpl.
  - by destruct s.
  - destruct s as [|b s]; simpl; [done |].
    destruct (Ascii.eqb_spec c b) as [->|]; [|done].
    intros H. rewrite append_cons. f_equal. by apply IH.
Qed.

Lemma startswith_iff s p :
  PyStr.startswith s p = true <-> exists r, s = p +:+ r.
Proof.
  split.
  - intros H. eexists. by apply startswith_drop.
  - intros [r ->]. apply startswith_append.
Qed.

Lemma startswith_two s p r :
  PyStr.startswith s (p +:+ r)
  = PyStr.startswith s p
    && PyStr.startswith (PyStr.drop (String.length p) s) r.
Proof.
  revert s; induction p as [|c p IH]; intros s; simpl.
  - by rewrite startswith_nil.
  - destruct s as [|b s]; simpl; [done |].
    destruct (Ascii.eqb c b); [apply IH | done].
Qed.

Lemma endswith_iff s p :
  PyStr.endswith s p = true <-> exists r, s = r +:+ p.
Proof.
  unfold PyStr.endswith. split.
  - destruct (Nat.leb_spec (String.length p) (String.length s)); [|done].
    intros Heq%String.eqb_eq.
    exists (PyStr.take (String.length s - String.length p) s).
    pose proof (take_drop (String.length s - String.length p) s) as Htd.
    by rewrite Heq in Htd.
  - intros [r ->]. rewrite length_append.
    replace (String.length r + String.length p - String.length p)%nat
      with (String.length r) by lia.
    rewrite drop_length_append, String.eqb_refl.
    by destruct (Nat.leb_spec (String.length p)
                   (String.length r + String.length p)); [|lia].
Qed.

(** A string that both starts with [p] and is the end of [p] is [p]. *)
Lemma startswith_endswith_eq s p :
  PyStr.startswith s p = true -> PyStr.endswith p s = true -> s = p.
Proof.
  intros [r Hr]%startswith_iff [t Ht]%endswith_iff.
  assert (String.length r = 0%nat) as Hlen.
  { apply (f_equal String.length) in Hr, Ht.
    rewrite length_append in Hr, Ht. lia. }
  destruct r; [|done]. by rewrite append_nil_r in Hr.
Qed.

End StringFacts.

(** ** GeventPlugin *)

Section GeventFacts.

(** A dot cannot complete the prefix [gevent]: whether [p.q] starts with
    it is decided by [p] alone. *)
Lemma startswith_gevent_dotted p q :
  PyStr.startswith (p +:+ "." +:+ q) "gevent" = PyStr.startswith p "gevent".
Proof.
  do 6 (destruct p as [|? p]; [done |];
        rewrite append_cons, !startswith_cons;
        match goal with |- context [Ascii.eqb ?a ?b] =>
          destruct (Ascii.eqb a b); [|done] end).
  by rewrite !startswith_nil.
Qed.

(** The name computed by the code and the name the specification describes
    differ only when module name and package coincide, where the code keeps
    the doubled name. *)
Lemma full_name_qualified_name module_name module_package :
  GeventPlugin.full_name module_name module_package
  = Spec.qualified_name module_name module_package
  \/ exists pkg, module_package = Some pkg /\ module_name = pkg
       /\ GeventPlugin.full_name module_name module_package
          = pkg +:+ "." +:+ pkg
       /\ Spec.qualified_name module_name module_package = pkg.
Proof.
  unfold GeventPlugin.full_name, Spec.qualified_name.
  destruct module_package as [pkg|]; simpl; [|by left].
  destruct (String.eqb pkg ""); simpl; [by left |].
  rewrite startswith_two.
  destruct (PyStr.startswith module_name pkg) eqn:Hs; simpl; [|by left].
  destruct (PyStr.startswith _ ".") eqn:Hd; [by left |].
  destruct (PyStr.endswith pkg module_name) eqn:He; [|by left].
  right. exists pkg.
  pose proof (startswith_endswith_eq _ _ Hs He) as ->. done.
Qed.

Lemma full_name_gevent module_name module_package :
  PyStr.startswith (GeventPlugin.full_name module_name module_package)
    "gevent"
  = PyStr.startswith (Spec.qualified_name module_name module_package)
      "gevent".
Proof.
  destruct (full_name_qualified_name module_name module_package)
    as [-> | (pkg & _ & _ & -> & ->)]; [done |].
  apply startswith_gevent_dotted.
Qed.

(** C6. [GeventPlugin.onModuleEncounter] returns [(True, reason)] exactly
    when the qualified full name of the module (package, dot and name in
    the standard case; the name when it begins with the package and a dot;
    the package when it ends with the name; the bare name without a
    package) starts with [gevent], and returns [None] otherwise, whatever
    the file name and kind. *)
Theorem gevent_onModuleEncounter_prefix
    module_filename module_name module_package module_kind :
  let r := GeventPlugin.onModuleEncounter
             module_filename module_name module_package module_kind in
  let q := Spec.qualified_name module_name module_package in
  (r = Some (true, "everything from gevent")
   <-> PyStr.startswith q "gevent" = true)
  /\ ((exists reason, r = Some (true, reason))
      <-> PyStr.startswith q "gevent" = true)
  /\ (r = None <-> PyStr.startswith q "gevent" <> true).
Proof.
  unfold GeventPlugin.onModuleEncounter. rewrite full_name_gevent.
  simpl. destruct (PyStr.startswith _ "gevent").
  - repeat split; try done; try (by eexists); by intros [= ].
  - repeat split; try done; by intros [reason [= ]].
Qed.

(** C7. [GeventPlugin.decideCompilation] answers [bytecode] exactly when
    the module name starts with [gevent] and the operating system is
    Windows; in every other case, so for every gevent module on another
    system, it returns [None]. *)
Theorem gevent_decideCompilation_windows os module_name source_ref :
  let r := GeventPlugin.decideCompilation os module_name source_ref in
  (r = Some "bytecode"
   <-> PyStr.startswith module_name "gevent" = true /\ os = "Windows")
  /\ (r = None
      <-> ~ (PyStr.startswith module_name "gevent" = true
             /\ os = "Windows"))
  /\ (os <> "Windows" -> r = None).
Proof.
  unfold GeventPlugin.decideCompilation. simpl.
  destruct (PyStr.startswith module_name "gevent");
    destruct (String.eqb_spec os "Windows"); simpl;
    repeat split; try done; try (by intros []); try tauto;
    by intros _ [].
Qed.

End GeventFacts.

Lemma gevent_decideCompilation_windows_witness :
  GeventPlugin.decideCompilation "Linux" "gevent.hub" "hub.py" = None.
Proof.
  apply (proj2 (proj2 (gevent_decideCompilation_windows
                         "Linux" "gevent.hub" "hub.py"))).
  discriminate.
Defined.

(** ** Splitting a dotted name *)

Section SplitFacts.

Variable sep : ascii.

Lemma split_nonempty s : PyStr.split sep s <> [].
Proof.
  destruct s as [|c s]; simpl; [done |].
  destruct (Ascii.eqb c sep); [done |].
  by destruct (PyStr.split sep s).
Qed.

(** Splitting distributes over a separator. *)
Lemma split_append a b :
  PyStr.split sep (a +:+ String sep b)
  = PyStr.split sep a ++ PyStr.split sep b.
Proof.
  induction a as [|c a IH].
  - rewrite append_nil_l. simpl. by rewrite Ascii.eqb_refl.
  - rewrite append_cons. simpl. rewrite IH.
    destruct (Ascii.eqb c sep); [done |].
    pose proof (split_nonempty a).
    by destruct (PyStr.split sep a).
Qed.

(** A string without separator is its own single piece. *)
Lemma split_atom x :
  PyStr.has_char sep x = false -> PyStr.split sep x = [x].
Proof.
  induction x as [|c x IH]; simpl; [done |].
  destruct (Ascii.eqb c sep); simpl; [done |].
  intros H. by rewrite (IH H).
Qed.

(** The first piece is a prefix that ends at the end or before a
    separator; each later piece sits behind a separator and likewise ends
    at the end or before a separator. *)
Lemma split_pieces s :
  (exists post,
      s = hd "" (PyStr.split sep s) +:+ post
      /\ (post = "" \/ exists post', post = String sep post'))
  /\ (forall x, In x (tl (PyStr.split sep s)) ->
      exists pre post,
        s = pre +:+ String sep (x +:+ post)
        /\ (post = "" \/ exists post', post = String sep post')).
Proof.
  induction s as [|c s [(post & Hhd & Hpost) IHtl]]; simpl.
  - split; [by exists ""; split; [|left] | done].
  - destruct (Ascii.eqb_spec c sep) as [->|Hc]; simpl.
    + split; [exists (String sep s); split; [done | right; by eexists] |].
      intros x Hx.
      pose proof (split_nonempty s).
      destruct (PyStr.split sep s) as [|h t] eqn:Hsplit; [done |].
      simpl in *. destruct Hx as [<- | Hx].
      * exists "", post. by rewrite append_nil_l, <- Hhd.
      * destruct (IHtl x Hx) as (pre & post' & -> & Hpost').
        by exists (String sep pre), post'.
    + pose proof (split_nonempty s).
      destruct (PyStr.split sep s) as [|h t] eqn:Hsplit; [done |].
      simpl in *. split.
      * exists post. by rewrite append_cons, <- Hhd.
      * intros x Hx.
        destruct (IHtl x Hx) as (pre & post' & -> & Hpost').
        by exists (String c pre), post'.
Qed.

End SplitFacts.

(** Membership in the pieces of a dotted name is being a component. *)
Lemma contains_split_component x s :
  PyStr.has_char "." x = false ->
  PyStr.contains (PyStr.split "." s) x = true <-> Spec.is_component x s.
Proof.
  intros Hx. unfold PyStr.contains, Spec.is_component.
  rewrite existsb_exists. split.
  - intros (y & Hy & <-%String.eqb_eq).
    destruct (split_pieces "." s) as [(post & Hhd & Hpost) Htl].
    pose proof (split_nonempty "." s).
    destruct (PyStr.split "." s) as [|h t]; [done |].
    simpl in *. destruct Hy as [-> | Hy].
    + exists "", post. split; [done |]. split; [by left | done].
    + destruct (Htl x Hy) as (pre & post' & -> & Hpost').
      exists (pre +:+ "."), post'.
      split; [by rewrite append_assoc | split; [right; by eexists | done]].
  - intros (pre & post & -> & Hpre & Hpost).
    exists x. split; [|apply String.eqb_refl].
    destruct Hpre as [-> | [pre' ->]], Hpost as [-> | [post' ->]];
      rewrite ?append_nil_l, ?append_nil_r, ?append_assoc;
      repeat match goal with
             | |- context ["." +:+ ?t] =>
                 change ("." +:+ t) with (String "." t)
             end;
      rewrite ?split_append, ?(split_atom _ _ Hx);
      rewrite ?in_app_iff; simpl; auto.
Qed.

(** ** The detectors *)

(** C1, as the code has it.  [TorchPluginDetector.onModuleDiscovered] emits
    the unused-plugin warning exactly when [torch] is one of the
    dot-separated components of the module's full name;
    [GeventPluginDetector.onModuleDiscovered] emits it exactly when the
    full name starts with [gevent]. *)
Theorem detectors_onModuleDiscovered module :
  (TorchPluginDetector.onModuleDiscovered module
   = [WarnUnusedPlugin "torch" "torch support."]
   <-> Spec.is_component "torch" (getFullName module))
  /\ (TorchPluginDetector.onModuleDiscovered module = []
      <-> ~ Spec.is_component "torch" (getFullName module))
  /\ (GeventPluginDetector.onModuleDiscovered module
      = [WarnUnusedPlugin "gevent" "gevent support."]
      <-> PyStr.startswith (getFullName module) "gevent" = true)
  /\ (GeventPluginDetector.onModuleDiscovered module = []
      <-> PyStr.startswith (getFullName module) "gevent" <> true).
Proof.
  unfold TorchPluginDetector.onModuleDiscovered,
    GeventPluginDetector.onModuleDiscovered. simpl.
  rewrite <- (contains_split_component "torch" (getFullName module) eq_refl).
  destruct (PyStr.contains _ "torch"),
    (PyStr.startswith (getFullName module) "gevent");
    repeat split; try done; intros H; try done; by destruct H.
Qed.

(** C1 as stated does not hold: warning and prefix [torch] part ways, for
    instance at the module [torchvision], which starts with [torch] and
    draws no warning. *)
Lemma torch_detector_not_prefix :
  ~ (forall module,
        TorchPluginDetector.onModuleDiscovered module
        = [WarnUnusedPlugin "torch" "torch support."]
        <-> PyStr.startswith (getFullName module) "torch" = true).
Proof.
  intros H. destruct (H {| getFullName := "torchvision" |}) as [_ Hw].
  discriminate (Hw eq_refl).
Qed.

(** The other direction fails as well: [a.torch] draws the warning and
    does not start with [torch]. *)
Example torch_detector_inner_component :
  TorchPluginDetector.onModuleDiscovered {| getFullName := "a.torch" |}
  = [WarnUnusedPlugin "torch" "torch support."]
  /\ PyStr.startswith "a.torch" "torch" = false.
Proof. by split. Qed.

(** ** TorchPlugin.onModuleEncounter *)

(** C8. [TorchPlugin.onModuleEncounter] returns [(True, reason)] exactly
    when the module package is [torchvision.transforms], or the package is
    [PIL] and the module name is one of [Image], [ImageColor], [ImageOps],
    [ImageEnhance], [ImageStat], [ImageFilter]; for every other module it
    returns [None]. *)
Theorem torch_onModuleEncounter_included
    module_filename module_name module_package module_kind :
  let r := TorchPlugin.onModuleEncounter
             module_filename module_name module_package module_kind in
  let included :=
    module_package = Some "torchvision.transforms"
    \/ (module_package = Some "PIL" /\ In module_name Spec.pil_modules) in
  ((exists reason, r = Some (true, reason)) <-> included)
  /\ (r = None <-> ~ included).
Proof.
  unfold TorchPlugin.onModuleEncounter. cbv zeta.
  change ["Image"; "ImageColor"; "ImageOps"; "ImageEnhance"; "ImageStat";
          "ImageFilter"] with Spec.pil_modules.
  assert (PyStr.contains Spec.pil_modules module_name = true
          <-> In module_name Spec.pil_modules) as Hin.
  { unfold PyStr.contains. rewrite existsb_exists. split.
    - by intros (y & Hy & ->%String.eqb_eq).
    - intros Hy. exists module_name. by rewrite String.eqb_refl. }
  destruct (PyStr.contains Spec.pil_modules module_name);
    repeat case_bool_decide; subst; cbn [andb];
    (split; split; try done);
    try (intros _; by left);
    try (intros _; by eexists);
    try (by intros [reason [=]]);
    try (intros Hn; destruct Hn; by left).
  - intros _. right. split; [done | by apply Hin].
  - intros Hn. destruct Hn. right. split; [done | by apply Hin].
  - intros [? | [? _]]; done.
  - intros _ [? | [? _]]; done.
  - intros [[=] | [_ Hm%Hin]]. done.
  - intros _ [[=] | [_ Hm%Hin]]. done.
  - intros [? | [? _]]; done.
  - intros _ [? | [? _]]; done.
Qed.

(** ** Lines of a source text *)

Section LineFacts.

Variable v : PyText.version.

Lemma LF_is_linebreak : PyText.is_linebreak v PyText.LF = true.
Proof. by destruct v. Qed.

(** No line of [splitlines] contains a line boundary. *)
Lemma splitlines_unbroken s : Forall (PyText.unbroken v) (PyText.splitlines v s).
Proof.
  induction s as [s IH] using (induction_ltof1 _ (@length N)).
  unfold ltof in IH. destruct s as [|c s]; simpl; [constructor |].
  destruct (PyText.is_linebreak v c) eqn:Hc.
  - constructor; [constructor |].
    destruct (N.eqb c PyText.CR); [|apply IH; simpl; lia].
    destruct s as [|c' s]; [apply IH; simpl; lia |].
    destruct (N.eqb c' PyText.LF); apply IH; simpl; lia.
  - assert (Forall (PyText.unbroken v) (PyText.splitlines v s)) as Hs
      by (apply IH; simpl; lia).
    destruct (PyText.splitlines v s) as [|l ls].
    + repeat constructor. done.
    + inversion Hs; subst. constructor; [by constructor | done].
Qed.

(** An unbroken, non-empty text is one line. *)
Lemma splitlines_line l :
  PyText.unbroken v l -> l <> [] -> PyText.splitlines v l = [l].
Proof.
  induction 1 as [|c l Hc Hl IH]; [done |]. intros _. simpl.
  rewrite Hc. destruct l as [|c' l]; [done |].
  by rewrite IH.
Qed.

(** An unbroken text followed by LF is a line of its own. *)
Lemma splitlines_LF l rest :
  PyText.unbroken v l ->
  PyText.splitlines v (l ++ PyText.LF :: rest)
  = l :: PyText.splitlines v rest.
Proof.
  induction 1 as [|c l Hc Hl IH]; simpl.
  - by rewrite LF_is_linebreak.
  - by rewrite Hc, IH.
Qed.

Lemma join_cons sep l ls :
  ls <> [] -> PyText.join sep (l :: ls) = l ++ sep ++ PyText.join sep ls.
Proof. by destruct ls. Qed.

(** Joining unbroken lines with LF, the last of them non-empty, and
    splitting again gives the lines back. *)
Lemma splitlines_join ls last :
  Forall (PyText.unbroken v) ls -> PyText.unbroken v last -> last <> [] ->
  PyText.splitlines v (PyText.join [PyText.LF] (ls ++ [last]))
  = ls ++ [last].
Proof.
  intros Hls Hlast Hne. induction Hls as [|l ls Hl Hls IH].
  - by apply splitlines_line.
  - rewrite <- app_comm_cons, join_cons by (by destruct ls).
    change ([PyText.LF] ++ ?t) with (PyText.LF :: t).
    rewrite splitlines_LF by done. by rewrite IH.
Qed.

Lemma splitlines_nil s : PyText.splitlines v s = [] -> s = [].
Proof.
  destruct s as [|c s]; [done |]. simpl.
  destruct (PyText.is_linebreak v c); [done |].
  by destruct (PyText.splitlines v s).
Qed.

(** On a text whose line ends are all LF, splitting, appending a line and
    joining with LF appends the line to the text itself, after the LF the
    last line may lack. *)
Lemma join_splitlines_only_LF s x :
  PyText.only_LF v s ->
  PyText.join [PyText.LF] (PyText.splitlines v s ++ [x])
  = s ++ (if PyText.unterminated s then [PyText.LF] else []) ++ x.
Proof.
  induction 1 as [|c s Hc Hs IH]; [done |].
  cbn [PyText.splitlines].
  destruct (PyText.is_linebreak v c) eqn:Hbreak.
  - rewrite (Hc eq_refl) in *.
    change (N.eqb PyText.LF PyText.CR) with false. cbv iota.
    rewrite <- app_comm_cons, join_cons
      by (by destruct (PyText.splitlines v s)).
    cbn [app]. f_equal. etrans; [exact IH |]. by destruct s.
  - assert (N.eqb c PyText.LF = false) as Hne.
    { apply N.eqb_neq. intros ->. by rewrite LF_is_linebreak in Hbreak. }
    destruct (PyText.splitlines v s) as [|l ls] eqn:Hsplit.
    + apply splitlines_nil in Hsplit as ->. simpl. by rewrite Hne.
    + rewrite <- app_comm_cons, join_cons by (by destruct ls).
      rewrite <- app_comm_cons, join_cons in IH by (by destruct ls).
      cbn [app] in *. f_equal. etrans; [exact IH |]. by destruct s.
Qed.

Lemma CR_is_linebreak : PyText.is_linebreak v PyText.CR = true.
Proof. by destruct v. Qed.

(** An unbroken text followed by a terminator is a line of its own. *)
Lemma splitlines_terminator l t rest :
  PyText.unbroken v l ->
  Spec.terminator v t ->
  (t = [PyText.CR] -> forall rest', rest <> PyText.LF :: rest') ->
  PyText.splitlines v (l ++ t ++ rest) = l :: PyText.splitlines v rest.
Proof.
  intros Hl Ht Hmunch. induction Hl as [|c l Hc Hl IH].
  - destruct Ht as [-> | (c & -> & Hc)].
    + cbn [app PyText.splitlines]. by rewrite CR_is_linebreak.
    + cbn [app PyText.splitlines]. rewrite Hc.
      destruct (N.eqb_spec c PyText.CR) as [-> | Hne]; [|done].
      destruct rest as [|c' rest]; [done |].
      destruct (N.eqb_spec c' PyText.LF) as [-> | Hne']; [|done].
      by destruct (Hmunch eq_refl rest).
  - rewrite <- app_comm_cons. cbn [PyText.splitlines].
    by rewrite Hc, IH.
Qed.

(** The lines of a text are those that [splitlines] returns, and no
    others. *)
Lemma lines_of_splitlines s ls :
  Spec.lines_of v s ls -> ls = PyText.splitlines v s.
Proof.
  induction 1 as [|l Hl Hne|l t rest ls Hl Ht Hmunch Hrest IH].
  - done.
  - by rewrite splitlines_line.
  - by rewrite splitlines_terminator, IH.
Qed.

Lemma lines_of_cons c s l ls :
  PyText.is_linebreak v c = false ->
  Spec.lines_of v s (l :: ls) -> Spec.lines_of v (c :: s) ((c :: l) :: ls).
Proof.
  intros Hc Hs. inversion Hs as [|l' Hl Hne|l' t rest ls' Hl Ht Hmunch Hrest];
    subst.
  - apply Spec.lines_last; [by constructor | done].
  - rewrite app_comm_cons.
    apply Spec.lines_more; [by constructor | done | done | done].
Qed.

Lemma splitlines_lines_of s : Spec.lines_of v s (PyText.splitlines v s).
Proof.
  induction s as [s IH] using (induction_ltof1 _ (@length N)).
  unfold ltof in IH. destruct s as [|c s]; [constructor |].
  cbn [PyText.splitlines].
  destruct (PyText.is_linebreak v c) eqn:Hc.
  - destruct (N.eqb_spec c PyText.CR) as [-> | Hne].
    + destruct s as [|c' s].
      * apply (Spec.lines_more v [] [PyText.CR] []);
          [constructor | right; by eexists | done |].
        apply IH. simpl. lia.
      * destruct (N.eqb_spec c' PyText.LF) as [-> | Hne'].
        -- apply (Spec.lines_more v [] [PyText.CR; PyText.LF] s);
             [constructor | by left | done |].
           apply IH. simpl. lia.
        -- apply (Spec.lines_more v [] [PyText.CR] (c' :: s));
             [constructor | right; by eexists | |].
           ++ intros _ rest' [= -> _]. done.
           ++ apply IH. simpl. lia.
    + apply (Spec.lines_more v [] [c] s);
        [constructor | right; by eexists | |].
      * intros [= ->]. done.
      * apply IH. simpl. lia.
  - assert (Spec.lines_of v s (PyText.splitlines v s)) as Hs
      by (apply IH; simpl; lia).
    destruct (PyText.splitlines v s) as [|l ls] eqn:Hsplit.
    + apply splitlines_nil in Hsplit as ->.
      apply Spec.lines_last; [by repeat constructor | done].
    + by apply lines_of_cons.
Qed.

(** Lines joined with LF, the last of them non-empty, make a text of
    these lines. *)
Lemma lines_of_join ls last :
  Forall (PyText.unbroken v) ls -> PyText.unbroken v last -> last <> [] ->
  Spec.lines_of v (PyText.join [PyText.LF] (ls ++ [last])) (ls ++ [last]).
Proof.
  intros Hls Hlast Hne. induction Hls as [|l ls Hl Hls IH].
  - by apply Spec.lines_last.
  - rewrite <- app_comm_cons, join_cons by (by destruct ls).
    apply Spec.lines_more; [done | | done | done].
    right. exists PyText.LF. split; [done | apply LF_is_linebreak].
Qed.

End LineFacts.

Lemma patch_line_unbroken v :
  PyText.unbroken v (PyText.of_string "config.track_greenlet_tree = False").
Proof. destruct v; repeat constructor. Qed.

(** C2. [GeventPlugin.onModuleSourceCode] patches one line into the source
    of [gevent._config]: the result is the lines of the original source,
    each unchanged and in order, followed by the single line
    [config.track_greenlet_tree = False], all joined by LF; and these are
    the lines of the result.  The lines of a text are what stands between
    its line terminators (CR LF, or one line-boundary character), so every
    terminator of the source comes out as LF, and LF goes in where the last
    line had no terminator.  On a source whose line boundaries are all LF
    the result is therefore the source text itself with the line appended,
    after the LF that its last line may lack.  The source of every other
    module is returned unchanged. *)
Theorem gevent_onModuleSourceCode_patch v module_name source_code :
  let line := PyText.of_string "config.track_greenlet_tree = False" in
  let out := fst (GeventPlugin.onModuleSourceCode v module_name source_code) in
  (module_name = "gevent._config" ->
   out = PyText.join [PyText.LF] (PyText.splitlines v source_code ++ [line])
   /\ PyText.splitlines v out = PyText.splitlines v source_code ++ [line]
   /\ (PyText.only_LF v source_code ->
       out = source_code
             ++ (if PyText.unterminated source_code then [PyText.LF] else [])
             ++ line)
   /\ (exists ls, Spec.lines_of v source_code ls)
   /\ (forall ls,
         Spec.lines_of v source_code ls ->
         out = PyText.join [PyText.LF] (ls ++ [line])
         /\ Spec.lines_of v out (ls ++ [line])))
  /\ (module_name <> "gevent._config" -> out = source_code).
Proof.
  unfold GeventPlugin.onModuleSourceCode. cbv zeta.
  destruct (String.eqb_spec module_name "gevent._config") as [Heq | Hne];
    cbn [negb fst]; split; try done.
  intros _. split_and!; [done | | | |].
  - apply splitlines_join.
    + apply splitlines_unbroken.
    + apply patch_line_unbroken.
    + done.
  - apply join_splitlines_only_LF.
  - eexists. apply splitlines_lines_of.
  - intros ls ->%lines_of_splitlines. split; [done |].
    apply lines_of_join.
    + apply splitlines_unbroken.
    + apply patch_line_unbroken.
    + done.
Qed.

(** The patch at work on a source with a CR LF line end. *)
Lemma gevent_onModuleSourceCode_patch_witness :
  fst (GeventPlugin.onModuleSourceCode PyText.Python3 "gevent._config"
         [97; 13; 10; 98]%N)
  = PyText.join [PyText.LF]
      ([[97%N]; [98%N]]
       ++ [PyText.of_string "config.track_greenlet_tree = False"]).
Proof.
  apply (proj2 (proj2 (proj2 (proj2
           (proj1 (gevent_onModuleSourceCode_patch
                     PyText.Python3 "gevent._config" [97; 13; 10; 98]%N)
              eq_refl))))).
  apply (Spec.lines_more PyText.Python3 [97%N] [PyText.CR; PyText.LF] [98%N]).
  - by repeat constructor.
  - by left.
  - done.
  - apply Spec.lines_last; [by repeat constructor | done].
Defined.

(** C2 as stated does not hold: the result need not be the source text
    with something appended.  The source [a CR LF b] comes back as
    [a LF b LF] and the line. *)
Lemma gevent_onModuleSourceCode_not_appended :
  ~ (forall v source_code,
        exists sep,
          fst (GeventPlugin.onModuleSourceCode v "gevent._config" source_code)
          = source_code ++ sep ++ Patch.line).
Proof.
  intros H. destruct (H PyText.Python2 [97; 13; 10; 98]%N) as [sep Hsep].
  vm_compute in Hsep. discriminate Hsep.
Qed.

(** Under Python 3 a form feed is a line boundary, too: the one line
    [a FF b] of the source is two lines of the result.  Under Python 2 it
    stays one. *)
Example gevent_onModuleSourceCode_form_feed :
  fst (GeventPlugin.onModuleSourceCode PyText.Python3 "gevent._config"
         [97; 12; 98; 10]%N)
  = [97; 10; 98; 10]%N ++ Patch.line
  /\ fst (GeventPlugin.onModuleSourceCode PyText.Python2 "gevent._config"
            [97; 12; 98; 10]%N)
     = [97; 12; 98; 10]%N ++ Patch.line.
Proof. split; vm_compute; reflexivity. Qed.

(** ** TorchPlugin: locating torch and its binaries *)

Section TorchLookup.

Context {os_path : OsPath}.
Variable env : TorchPlugin.environment.

Import TorchPlugin.

(** C4, as the code has it.  [get_module_file_attribute] never returns a
    falsy path: it returns a filename exactly when a loader is found and
    yields that filename, non-empty, and then returns it unchanged.  It
    raises [ImportError] when the loader yields no filename ([None] or the
    empty string).  When no loader is found it raises at once as well, but
    an [AttributeError]; what [find_loader] or [get_filename] raise
    propagates. *)
Theorem get_module_file_attribute_outcome package :
  let r := get_module_file_attribute env package in
  (forall a, r = Ret a <->
     a <> "" /\ exists loader,
       find_loader env package = Ret (Some loader)
       /\ get_filename loader package = Ret (Some a))
  /\ (forall loader attr,
        find_loader env package = Ret (Some loader) ->
        get_filename loader package = Ret attr ->
        PyStr.truthy attr = false -> r = Raise ImportError)
  /\ (find_loader env package = Ret None -> r = Raise AttributeError)
  /\ (forall e, find_loader env package = Raise e -> r = Raise e)
  /\ (forall loader e,
        find_loader env package = Ret (Some loader) ->
        get_filename loader package = Raise e -> r = Raise e).
Proof.
  unfold get_module_file_attribute. cbv zeta. split_and!.
  - intros a. split.
    + destruct (find_loader env package) as [[loader|]|]; try done.
      destruct (get_filename loader package) as [[a'|]|] eqn:Hf; try done.
      destruct (String.eqb_spec a' ""); [done |].
      intros [= ->]. split; [done | by exists loader].
    + intros (Ha & loader & -> & ->).
      by destruct (String.eqb_spec a "").
  - intros loader attr -> -> Hattr. destruct attr as [a|]; [|done].
    simpl in Hattr. by destruct (String.eqb a "").
  - by intros ->.
  - by intros e ->.
  - by intros loader e -> ->.
Qed.

(** The loop of [get_torch_core_binaries] keeps, in order, the entries
    with a recognized extension, each joined to the directory. *)
Lemma collect_filter extra_dll netto_bins :
  collect extra_dll netto_bins
  = map (fun f => (join extra_dll f, "."))
      (List.filter (fun f => PyStr.endswith_any f recognized) netto_bins).
Proof.
  unfold collect.
  enough (forall acc,
            fold_left
              (fun binaries f =>
                 if negb (PyStr.endswith_any f recognized) then binaries
                 else binaries ++ [(join extra_dll f, ".")])
              netto_bins acc
            = acc ++ map (fun f => (join extra_dll f, "."))
                       (List.filter
                          (fun f => PyStr.endswith_any f recognized)
                          netto_bins)) as H by apply (H []).
  induction netto_bins as [|f l IH]; intros acc.
  - simpl. by rewrite app_nil_r.
  - cbn [fold_left List.filter]. rewrite IH.
    destruct (PyStr.endswith_any f recognized); cbn [negb map]; [|done].
    by rewrite <- app_assoc.
Qed.

Lemma endswith_any_recognized f :
  PyStr.endswith_any f recognized = true <-> Spec.recognized_name f.
Proof.
  unfold PyStr.endswith_any, Spec.recognized_name, recognized.
  rewrite existsb_exists. split.
  - intros (ext & Hin & [stem ->]%endswith_iff). by exists ext, stem.
  - intros (ext & stem & Hin & ->). exists ext. split; [done |].
    apply endswith_iff. by exists stem.
Qed.

(** C9. Once the torch package is located, [get_torch_core_binaries]
    returns the empty list when the [lib] directory next to it does not
    exist; otherwise it returns, in directory order, one pair of the path
    and [.] for each entry whose name ends in [.dll], [.so], [.dylib] or
    [.h], and no pair for any other entry.  The store is left as it was. *)
Theorem get_torch_core_binaries_recognized s attr :
  get_module_file_attribute env "torch" = Ret attr ->
  let extra_dll := join (dirname attr) "lib" in
  (is_dir s extra_dll = false ->
   get_torch_core_binaries env s = (Ret [], s))
  /\ (forall entries,
        is_dir s extra_dll = true ->
        listdir env extra_dll = Ret entries ->
        exists binaries,
          get_torch_core_binaries env s = (Ret binaries, s)
          /\ binaries
             = map (fun f => (join extra_dll f, "."))
                 (List.filter
                    (fun f => PyStr.endswith_any f recognized) entries)
          /\ forall path dest,
               In (path, dest) binaries <->
               dest = "."
               /\ exists f, In f entries /\ Spec.recognized_name f
                            /\ path = join extra_dll f).
Proof.
  intros Hattr extra_dll. unfold get_torch_core_binaries.
  unfold mbind, M_bind, lift, get, mret, M_ret. rewrite Hattr.
  fold extra_dll. split.
  - intros ->. done.
  - intros entries -> ->. simpl. eexists. split; [done |].
    split; [apply collect_filter |].
    intros path dest. rewrite collect_filter, in_map_iff. split.
    + intros (f & [= <- <-] & [Hf Hrec]%filter_In).
      split; [done |]. exists f. by rewrite <- endswith_any_recognized.
    + intros (-> & f & Hf & Hrec & ->). exists f. split; [done |].
      apply filter_In. by rewrite endswith_any_recognized.
Qed.

End TorchLookup.

(** C4 as stated does not hold: for a package without loader, such as
    [nosuch] in the example installation, the exception raised is not an
    [ImportError]. *)
Lemma get_module_file_attribute_no_loader :
  ~ (forall env package,
        TorchPlugin.find_loader env package = Ret None ->
        TorchPlugin.get_module_file_attribute env package
        = Raise ImportError).
Proof.
  intros H. specialize (H Example.env "nosuch" eq_refl). discriminate H.
Qed.

Lemma get_module_file_attribute_outcome_witness :
  TorchPlugin.get_module_file_attribute Example.env "nosuch"
  = Raise AttributeError
  /\ TorchPlugin.get_module_file_attribute Example.env "torch"
     = Ret "/site/torch/__init__.py".
Proof.
  split.
  - exact (proj1 (proj2 (proj2 (get_module_file_attribute_outcome
                                  Example.env "nosuch"))) eq_refl).
  - apply (proj1 (get_module_file_attribute_outcome Example.env "torch")).
    split; [done |]. by exists Example.torch_loader.
Defined.

Lemma get_torch_core_binaries_recognized_witness :
  exists binaries,
    TorchPlugin.get_torch_core_binaries (os_path := Posix.os_path)
      Example.env Example.start
    = (Ret binaries, Example.start)
    /\ binaries
       = [("/site/torch/lib/c10.dll", "."); ("/site/torch/lib/torch.dll", ".");
          ("/site/torch/lib/thc.h", ".")].
Proof.
  destruct (proj2 (get_torch_core_binaries_recognized
                     (os_path := Posix.os_path) Example.env Example.start
                     "/site/torch/__init__.py" eq_refl)
              ["c10.dll"; "readme.txt"; "torch.dll"; "thc.h"]
              ltac:(vm_compute; reflexivity) eq_refl)
    as (binaries & Hrun & Hbin & _).
  exists binaries. split; [exact Hrun | exact Hbin].
Defined.

(** ** TorchPlugin.considerExtraDlls: the one-shot flag *)

Section CopyOnce.

Context {os_path : OsPath} {interp : Interpreter}.
Variable env : TorchPlugin.environment.

Import TorchPlugin.

Lemma keeps_flag_ret {A} (a : A) : Spec.keeps_flag (mret a).
Proof. by intros s. Qed.

Lemma keeps_flag_bind {A B} (m : M state A) (k : A -> M state B) :
  Spec.keeps_flag m -> (forall a, Spec.keeps_flag (k a)) ->
  Spec.keeps_flag (m ≫= k).
Proof.
  intros Hm Hk s. unfold mbind, M_bind. specialize (Hm s).
  destruct (m s) as [[a|e] s']; simpl in *; [|done].
  by rewrite Hk.
Qed.

Lemma keeps_flag_lift {A} (r : result A) : Spec.keeps_flag (lift r).
Proof. by intros s. Qed.

Lemma keeps_flag_get : Spec.keeps_flag get.
Proof. by intros s. Qed.

Lemma keeps_flag_emit e : Spec.keeps_flag (emit e).
Proof. by intros s. Qed.

Lemma keeps_flag_makedirs p : Spec.keeps_flag (makedirs p).
Proof.
  intros s. unfold makedirs.
  by match goal with |- context [if ?c then _ else _] => destruct c end.
Qed.

Lemma keeps_flag_shutil_copy src dst : Spec.keeps_flag (shutil_copy src dst).
Proof.
  intros s. unfold shutil_copy. cbv zeta.
  destruct (negb _); [done |].
  destruct (String.eqb src _); [done |].
  match goal with
  | |- context [if is_dir ?a ?b then (Raise OSError, _) else _] =>
      destruct (is_dir a b); [done |]
  end.
  by match goal with |- context [if ?c then _ else _] => destruct c end.
Qed.

Lemma keeps_flag_for_ {A} (l : list A) (body : A -> M state unit) :
  (forall x, Spec.keeps_flag (body x)) -> Spec.keeps_flag (for_ l body).
Proof.
  intros Hbody. induction l as [|x l IH]; simpl.
  - apply keeps_flag_ret.
  - apply keeps_flag_bind; [apply Hbody | done].
Qed.

Lemma keeps_flag_copy_binary dist_dir f :
  Spec.keeps_flag (copy_binary dist_dir f).
Proof.
  unfold copy_binary.
  apply keeps_flag_bind; [apply keeps_flag_get |]. intros s.
  apply keeps_flag_bind; [|intros _; apply keeps_flag_shutil_copy].
  destruct (negb _); [apply keeps_flag_makedirs | apply keeps_flag_ret].
Qed.

Lemma keeps_flag_get_torch_core_binaries :
  Spec.keeps_flag (get_torch_core_binaries env).
Proof.
  unfold get_torch_core_binaries.
  apply keeps_flag_bind; [apply keeps_flag_lift |]. intros attr.
  apply keeps_flag_bind; [apply keeps_flag_get |]. intros s.
  destruct (negb _); [apply keeps_flag_ret |].
  apply keeps_flag_bind; [apply keeps_flag_lift |]. intros entries.
  apply keeps_flag_ret.
Qed.

(** With the flag set the call returns at once and touches nothing. *)
Lemma considerExtraDlls_copied dist_dir module s :
  files_copied s = true ->
  considerExtraDlls env dist_dir module s = (Ret tt, s).
Proof.
  intros H. unfold considerExtraDlls, mbind, M_bind, get. by rewrite H.
Qed.

(** For a module other than [torch] the call touches nothing either. *)
Lemma considerExtraDlls_other dist_dir module s :
  getFullName module <> "torch" ->
  considerExtraDlls env dist_dir module s = (Ret tt, s).
Proof.
  intros H. unfold considerExtraDlls, mbind, M_bind, get.
  destruct (files_copied s); [done |].
  by destruct (String.eqb_spec (getFullName module) "torch").
Qed.

(** For [torch] the call leaves the flag set, whatever else happens. *)
Lemma considerExtraDlls_sets_flag dist_dir module s :
  getFullName module = "torch" ->
  files_copied (snd (considerExtraDlls env dist_dir module s)) = true.
Proof.
  intros H. unfold considerExtraDlls.
  unfold mbind at 1. unfold M_bind at 1. unfold get at 1.
  destruct (files_copied s) eqn:Hs; [done |].
  rewrite H, String.eqb_refl.
  unfold mbind at 1. unfold M_bind at 1.
  unfold set_files_copied, modify. cbv beta.
  match goal with
  | |- files_copied (snd (_ ?s')) = true =>
      transitivity (files_copied s'); [|done]
  end.
  apply (keeps_flag_bind (get_torch_core_binaries env));
    [apply keeps_flag_get_torch_core_binaries |].
  intros binaries. destruct (_ =? 0)%nat; [apply keeps_flag_ret |].
  repeat (apply keeps_flag_bind; [|intros ?]);
    try apply keeps_flag_emit; try apply keeps_flag_ret.
  apply keeps_flag_for_. intros f. apply keeps_flag_copy_binary.
Qed.

Lemma run_calls_copied calls s :
  files_copied s = true -> run_calls env calls s = map (Spec.quiet s) calls.
Proof.
  intros H. induction calls as [|[d m] calls IH]; simpl; [done |].
  by rewrite considerExtraDlls_copied, IH.
Qed.

Lemma run_calls_other calls rest s :
  Forall Spec.not_torch calls ->
  run_calls env (calls ++ rest) s
  = map (Spec.quiet s) calls ++ run_calls env rest s.
Proof.
  induction 1 as [|[d m] calls Hm Hcalls IH]; simpl; [done |].
  by rewrite considerExtraDlls_other, IH.
Qed.

(** C3. In every run of calls of [considerExtraDlls] on a freshly
    constructed plugin, the calls before the first one for the module
    [torch] return the empty tuple and leave everything as it is; that
    first call for [torch] is the only one that can copy, and it sets the
    flag; every later call returns the empty tuple and leaves everything,
    the set flag included, as it is. *)
Theorem considerExtraDlls_once dirs0 files0 calls :
  let s0 := init dirs0 files0 in
  (Forall Spec.not_torch calls ->
   run_calls env calls s0 = map (Spec.quiet s0) calls)
  /\ (forall pre dist_dir module post,
        calls = pre ++ (dist_dir, module) :: post ->
        Forall Spec.not_torch pre ->
        getFullName module = "torch" ->
        let first := considerExtraDlls env dist_dir module s0 in
        files_copied (snd first) = true
        /\ run_calls env calls s0
           = map (Spec.quiet s0) pre
             ++ first :: map (Spec.quiet (snd first)) post).
Proof.
  intros s0. split.
  - intros H. rewrite <- (app_nil_r calls) at 1.
    rewrite run_calls_other by done. simpl. by rewrite app_nil_r.
  - intros pre dist_dir module post -> Hpre Htorch first.
    pose proof (considerExtraDlls_sets_flag dist_dir module s0 Htorch)
      as Hflag.
    split; [done |].
    rewrite run_calls_other by done. f_equal. simpl.
    subst first.
    destruct (considerExtraDlls env dist_dir module s0) as [r s1].
    simpl in *. by rewrite run_calls_copied.
Qed.

End CopyOnce.

Lemma considerExtraDlls_once_witness :
  map fst
    (TorchPlugin.run_calls (os_path := Posix.os_path)
                           (interp := c_locale) Example.env
       [("/out", Example.other_module); ("/out", Example.torch_module);
        ("/out", Example.torch_module); ("/out", Example.other_module)]
       Example.start)
  = [Ret tt; Ret tt; Ret tt; Ret tt]
  /\ TorchPlugin.files_copied
       (snd (TorchPlugin.considerExtraDlls (os_path := Posix.os_path)
                                           (interp := c_locale)
               Example.env "/out" Example.torch_module Example.start))
     = true.
Proof.
  destruct (proj2 (considerExtraDlls_once (os_path := Posix.os_path)
                                          (interp := c_locale)
                     Example.env
                     (TorchPlugin.dirs Example.start)
                     (TorchPlugin.files Example.start)
                     [("/out", Example.other_module);
                      ("/out", Example.torch_module);
                      ("/out", Example.torch_module);
                      ("/out", Example.other_module)])
              [("/out", Example.other_module)] "/out" Example.torch_module
              [("/out", Example.torch_module); ("/out", Example.other_module)]
              eq_refl
              ltac:(repeat constructor; discriminate)
              eq_refl) as [Hflag Hrun].
  split; [|exact Hflag].
  change (TorchPlugin.init _ _) with Example.start in Hrun.
  rewrite Hrun. vm_compute. reflexivity.
Defined.

(** ** TorchPlugin.considerExtraDlls: where a binary is copied to *)

Section FindFacts.

(** [find] returns the position of the first occurrence. *)
Lemma find_first s sub i :
  PyStr.find s sub = i -> 0 <= i ->
  exists pre post,
    s = pre +:+ post
    /\ Z.of_nat (String.length pre) = i
    /\ PyStr.startswith post sub = true
    /\ forall k, (k < String.length pre)%nat ->
         PyStr.startswith (PyStr.drop k s) sub = false.
Proof.
  revert i. induction s as [|c s IH]; intros i.
  - cbn [PyStr.find].
    destruct (PyStr.startswith "" sub) eqn:Hs; [|intros <- ?; lia].
    intros <- _. exists "", "". repeat split; try done. simpl. lia.
  - cbn [PyStr.find].
    destruct (PyStr.startswith (String c s) sub) eqn:Hs.
    + intros <- _. exists "", (String c s).
      repeat split; try done. simpl. lia.
    + destruct (Z.ltb_spec (PyStr.find s sub) 0) as [Hlt | Hge];
        [intros <- ?; lia |].
      intros <- _.
      destruct (IH _ eq_refl Hge) as (pre & post & -> & Hlen & Hpost & Hk).
      exists (String c pre), post. repeat split; try done.
      * simpl String.length. lia.
      * intros [|k] Hlt; [done |]. simpl. apply Hk.
        simpl in Hlt. lia.
Qed.

Lemma slice_from_tail pre post :
  PyStr.slice_from (Z.of_nat (String.length pre)) (pre +:+ post) = post.
Proof.
  unfold PyStr.slice_from.
  destruct (Z.ltb_spec (Z.of_nat (String.length pre)) 0); [lia |].
  rewrite Nat2Z.id. apply drop_length_append.
Qed.

(** Where [torch] is found, the slice taken by the plugin is the tail from
    its first occurrence. *)
Lemma slice_from_find_torch bin_file :
  0 <= PyStr.find bin_file "torch" ->
  Spec.tail_from_torch bin_file
    (PyStr.slice_from (PyStr.find bin_file "torch") bin_file).
Proof.
  intros Hidx.
  destruct (find_first bin_file "torch" _ eq_refl Hidx)
    as (pre & post & Hs & Hlen & Hpost & Hk).
  rewrite <- Hlen. rewrite Hs at 2. rewrite slice_from_tail.
  by exists pre.
Qed.

End FindFacts.

Section CopyDestinations.

Context {os_path : OsPath} {interp : Interpreter}.
Variable env : TorchPlugin.environment.

Import TorchPlugin.

(** A successful [makedirs] leaves the directory and all its ancestors in
    place and logs itself. *)
Lemma makedirs_ret p s s1 :
  makedirs p s = (Ret tt, s1) ->
  Forall (fun a => a ∈ dirs s1) (p :: ancestors p)
  /\ log s1 = log s ++ [MakeDirs p].
Proof.
  unfold makedirs.
  match goal with |- (if ?c then _ else _) = _ -> _ => destruct c end;
    [done |].
  intros [= <-]. simpl.
  split; [|done]. apply Forall_forall. intros a Ha.
  apply elem_of_cons in Ha as [-> | Ha].
  - apply elem_of_union. left. apply elem_of_union. right.
    by apply elem_of_singleton.
  - apply elem_of_union. right. by apply elem_of_list_to_set.
Qed.

Lemma shutil_copy_ret src dst s1 s' :
  shutil_copy src dst s1 = (Ret tt, s') ->
  log s' = log s1 ++ [Copy src dst].
Proof.
  unfold shutil_copy. cbv zeta. destruct (negb _); [done |].
  destruct (String.eqb src _); [done |].
  match goal with
  | |- context [if is_dir ?a ?b then (Raise OSError, _) else _] =>
      destruct (is_dir a b); [done |]
  end.
  match goal with |- (if ?c then _ else _) = _ -> _ => destruct c end;
    [|done].
  by intros [= <-].
Qed.

End CopyDestinations.

(** ** SimpleDictManipulation *)

Section DictFacts.

Import SimpleDictManipulation.

(** The dictionary after the six assignments of a group. *)
Lemma assignments_empty :
  assignments ∅
  = (Ret tt, list_to_map [(0, 3); (1, 4); (2, 5); (3, 3); (4, 4); (5, 5)]).
Proof. vm_compute. reflexivity. Qed.

(** One group, started on the empty dictionary, raises no [KeyError] and
    ends on the empty dictionary. *)
Lemma group_empty : group ∅ = (Ret tt, ∅).
Proof. vm_compute. reflexivity. Qed.

Lemma body_empty : body ∅ = (Ret tt, ∅).
Proof. vm_compute. reflexivity. Qed.

Lemma for_range_succ {S} (n : N) (m : M S unit) :
  for_range (N.succ n) m = (m;; for_range n m).
Proof. unfold for_range. by rewrite N.iter_succ. Qed.

Lemma for_range_body_empty (n : N) : for_range n body ∅ = (Ret tt, ∅).
Proof.
  induction n as [|n IH] using N.peano_ind; [done |].
  rewrite for_range_succ. unfold mbind, M_bind.
  by rewrite body_empty.
Qed.

(** C10. In [SimpleDictManipulation.test] the dictionary [d] is empty at
    the start of every round of the loop and again at its end: in each of
    the five groups of a round the six assignments leave exactly the keys
    0 to 5, every lookup finds its key, and the six deletions remove
    exactly these keys, so that no lookup and no deletion raises
    [KeyError], in any of the [rounds] rounds. *)
Theorem simple_dict_manipulation_empty :
  (forall i : N, before_round i = (Ret tt, ∅))
  /\ body ∅ = (Ret tt, ∅)
  /\ test = (Ret tt, ∅)
  /\ (exists d : dict,
        assignments ∅ = (Ret tt, d)
        /\ dom d = list_to_set [0; 1; 2; 3; 4; 5]
        /\ lookups d = (Ret tt, d)
        /\ membership_tests d = (Ret tt, d)
        /\ deletions d = (Ret tt, ∅))
  /\ group ∅ = (Ret tt, ∅).
Proof.
  split_and!.
  - intros i. apply for_range_body_empty.
  - apply body_empty.
  - apply for_range_body_empty.
  - eexists. split; [apply assignments_empty |].
    split_and!; vm_compute; reflexivity.
  - apply group_empty.
Qed.

End DictFacts.

(** * Further properties *)

(** ** GeventPlugin: what decides the inclusion *)

Section GeventPackage.

(** With a package, the name computed by [onModuleEncounter] starts with
    [gevent] exactly when the package does. *)
Lemma full_name_gevent_package module_name pkg :
  pkg <> "" ->
  PyStr.startswith (GeventPlugin.full_name module_name (Some pkg)) "gevent"
  = PyStr.startswith pkg "gevent".
Proof.
  intros Hpkg. unfold GeventPlugin.full_name. simpl.
  destruct (String.eqb_spec pkg ""); [done |]. simpl.
  destruct (PyStr.startswith module_name pkg) eqn:Hs.
  - destruct (PyStr.startswith _ ".") eqn:Hd.
    + apply startswith_drop in Hs. apply startswith_drop in Hd.
      rewrite Hs, Hd. apply startswith_gevent_dotted.
    + apply startswith_gevent_dotted.
  - destruct (PyStr.endswith pkg module_name); [done |].
    apply startswith_gevent_dotted.
Qed.

(** X1. Whether [GeventPlugin.onModuleEncounter] includes a module is
    decided by the package alone when there is one, and by the module name
    only when there is none: with a non-empty package the answer is
    [(True, reason)] exactly when the package starts with [gevent],
    whatever the module name; with no package (or an empty one) exactly
    when the module name starts with [gevent]. *)
Theorem gevent_onModuleEncounter_by_package
    module_filename module_name module_package module_kind :
  let decisive :=
    match module_package with
    | Some pkg => if String.eqb pkg "" then module_name else pkg
    | None => module_name
    end in
  GeventPlugin.onModuleEncounter
    module_filename module_name module_package module_kind
  = if PyStr.startswith decisive "gevent"
    then Some (true, "everything from gevent") else None.
Proof.
  unfold GeventPlugin.onModuleEncounter. cbv zeta.
  destruct module_package as [pkg|]; [|done].
  destruct (String.eqb_spec pkg "") as [-> | Hpkg]; [done |].
  by rewrite full_name_gevent_package.
Qed.

End GeventPackage.

(** ** GeventPlugin.onModuleSourceCode: the shape of the patched text *)

Section PatchedText.

Variable v : PyText.version.

Lemma patched_join source :
  Patch.patched v source
  = PyText.join [PyText.LF] (PyText.splitlines v source ++ [Patch.line]).
Proof. reflexivity. Qed.

Lemma splitlines_patched source :
  PyText.splitlines v (Patch.patched v source)
  = PyText.splitlines v source ++ [Patch.line].
Proof.
  rewrite patched_join. apply splitlines_join.
  - apply splitlines_unbroken.
  - apply patch_line_unbroken.
  - done.
Qed.

(** X2. The hook does not look whether the line is there already: run [n]
    times over the source of [gevent._config] it leaves the original lines
    followed by [n] copies of the patch line. *)
Theorem gevent_onModuleSourceCode_repeated (n : nat) source :
  PyText.splitlines v (Nat.iter n (Patch.patched v) source)
  = PyText.splitlines v source ++ replicate n Patch.line.
Proof.
  induction n as [|n IH]; simpl.
  - by rewrite app_nil_r.
  - rewrite splitlines_patched, IH, <- app_assoc. f_equal.
    change (replicate n Patch.line ++ [Patch.line]
            = replicate (S n) Patch.line).
    by rewrite replicate_S_end.
Qed.

Lemma unbroken_only_LF l : PyText.unbroken v l -> PyText.only_LF v l.
Proof.
  unfold PyText.unbroken, PyText.only_LF. intros Hl.
  eapply Forall_impl; [exact Hl |].
  intros c Hc Hbreak. by rewrite Hc in Hbreak.
Qed.

Lemma only_LF_join ls :
  Forall (PyText.unbroken v) ls ->
  PyText.only_LF v (PyText.join [PyText.LF] ls).
Proof.
  induction 1 as [|l ls Hl Hls IH]; [constructor |].
  destruct ls as [|l' ls]; [by apply unbroken_only_LF |].
  rewrite join_cons by done. unfold PyText.only_LF in *.
  rewrite !Forall_app. split_and!; [by apply unbroken_only_LF | | done].
  by repeat constructor.
Qed.

Lemma join_snoc sep ls x :
  exists pre, PyText.join sep (ls ++ [x]) = pre ++ x.
Proof.
  induction ls as [|l ls [pre IH]]; [by exists [] |].
  exists (l ++ sep ++ pre).
  rewrite <- app_comm_cons, join_cons by (by destruct ls).
  by rewrite IH, !app_assoc.
Qed.

Lemma unterminated_app pre x :
  x <> [] -> PyText.unterminated (pre ++ x) = PyText.unterminated x.
Proof.
  intros Hx. induction pre as [|c pre IH]; [done |].
  rewrite <- app_comm_cons. cbn [PyText.unterminated].
  destruct (pre ++ x) eqn:Happ; [|done].
  by apply app_eq_nil in Happ as [_ ->].
Qed.

(** X3. The patched source of [gevent._config] comes out in one form
    whatever line ends went in: LF is the only line boundary left in it
    (CR, CR LF and the other boundaries are gone), and it ends with the
    patch line itself, without a final LF. *)
Theorem gevent_onModuleSourceCode_normal_form source :
  PyText.only_LF v (Patch.patched v source)
  /\ PyText.unterminated (Patch.patched v source) = true
  /\ exists before, Patch.patched v source = before ++ Patch.line.
Proof.
  rewrite patched_join.
  destruct (join_snoc [PyText.LF] (PyText.splitlines v source) Patch.line)
    as [pre Hpre].
  split_and!.
  - apply only_LF_join, Forall_app. split; [apply splitlines_unbroken |].
    constructor; [apply patch_line_unbroken | constructor].
  - rewrite Hpre. by rewrite unterminated_app.
  - by exists pre.
Qed.

End PatchedText.

(** ** TorchPluginDetector: which names draw the warning *)

Section DetectorCases.

Lemma has_char_append c a b :
  PyStr.has_char c (a +:+ b) = PyStr.has_char c a || PyStr.has_char c b.
Proof.
  induction a as [|x a IH]; [done |].
  rewrite append_cons. simpl. by rewrite IH, orb_assoc.
Qed.

(** A name without separator has itself as its only component. *)
Lemma is_component_dotless x s :
  PyStr.has_char "." s = false -> Spec.is_component x s -> s = x.
Proof.
  intros Hs (pre & post & -> & Hpre & Hpost).
  rewrite !has_char_append in Hs.
  apply orb_false_elim in Hs as [Hpre' [_ Hpost']%orb_false_elim].
  destruct Hpre as [-> | [pre' ->]].
  - destruct Hpost as [-> | [post' ->]]; [by rewrite append_nil_r |].
    by rewrite has_char_append in Hpost'.
  - rewrite has_char_append in Hpre'.
    by apply orb_false_elim in Hpre' as [_ ?].
Qed.

(** Where a string occurs, [find] finds it. *)
Lemma find_occurrence pre sub post :
  0 <= PyStr.find (pre +:+ sub +:+ post) sub.
Proof.
  induction pre as [|c pre IH].
  - rewrite append_nil_l.
    destruct (sub +:+ post) eqn:Hs; cbn [PyStr.find];
      rewrite <- Hs, startswith_append; done.
  - rewrite append_cons. cbn [PyStr.find].
    destruct (PyStr.startswith _ sub); [done |].
    destruct (Z.ltb_spec (PyStr.find (pre +:+ sub +:+ post) sub) 0); lia.
Qed.

(** X4. [TorchPluginDetector.onModuleDiscovered] warns for the module
    [torch] and for every module whose full name starts with [torch.]; for
    a full name without a dot it warns only if the name is [torch]; and it
    keeps silent whenever [torch] occurs nowhere in the full name. *)
Theorem torch_detector_cases module :
  let name := getFullName module in
  let warning := [WarnUnusedPlugin "torch" "torch support."] in
  let r := TorchPluginDetector.onModuleDiscovered module in
  (PyStr.startswith name "torch." = true -> r = warning)
  /\ (PyStr.has_char "." name = false -> (r = warning <-> name = "torch"))
  /\ (PyStr.find name "torch" = -1 -> r = []).
Proof.
  intros name warning r.
  assert (r = warning <-> Spec.is_component "torch" name) as Hr.
  { subst r warning name. unfold TorchPluginDetector.onModuleDiscovered.
    cbv zeta.
    rewrite <- (contains_split_component "torch" (getFullName module) eq_refl).
    by destruct (PyStr.contains _ "torch"). }
  assert (r = warning \/ r = []) as Hcases.
  { subst r warning. unfold TorchPluginDetector.onModuleDiscovered. cbv zeta.
    destruct (PyStr.contains _ "torch"); [by left | by right]. }
  split_and!.
  - intros [rest Hname]%startswith_iff. apply Hr.
    exists "", ("." +:+ rest). split; [|split; [by left | right; by eexists]].
    rewrite Hname. by rewrite append_nil_l.
  - intros Hdot. rewrite Hr. split.
    + by apply is_component_dotless.
    + intros ->. exists "", "". by split; [|split; left].
  - intros Hfind. destruct Hcases as [Hw | Hs]; [|done].
    apply Hr in Hw as (pre & post & Hname & _).
    pose proof (find_occurrence pre "torch" post) as Hocc.
    rewrite <- Hname in Hocc. lia.
Qed.

End DetectorCases.

Lemma torch_detector_cases_witness :
  TorchPluginDetector.onModuleDiscovered {| getFullName := "torch.nn" |}
  = [WarnUnusedPlugin "torch" "torch support."]
  /\ TorchPluginDetector.onModuleDiscovered {| getFullName := "gevent.hub" |}
     = [].
Proof.
  split.
  - exact (proj1 (torch_detector_cases {| getFullName := "torch.nn" |})
             eq_refl).
  - exact (proj2 (proj2 (torch_detector_cases
                           {| getFullName := "gevent.hub" |})) eq_refl).
Defined.

(** ** TorchPlugin: what the plugin does to its surroundings *)

Section TorchEffects.

Context {os_path : OsPath} {interp : Interpreter}.
Variable env : TorchPlugin.environment.

Import TorchPlugin.

Lemma get_torch_core_binaries_store s :
  snd (get_torch_core_binaries env s) = s.
Proof.
  unfold get_torch_core_binaries, mbind, M_bind, lift, get, mret, M_ret.
  destruct (get_module_file_attribute env "torch") as [attr|e]; [|done].
  destruct (negb _); [done |].
  by destruct (listdir env _).
Qed.

(** X5. [get_torch_core_binaries] only reads: whatever its outcome, the
    store is as before.  When it raises, the exception is the one raised
    by locating [torch], or the one raised by listing the existing [lib]
    directory; and what it returns is never longer than that listing. *)
Theorem get_torch_core_binaries_reads_only s :
  let r := fst (get_torch_core_binaries env s) in
  snd (get_torch_core_binaries env s) = s
  /\ (forall e, r = Raise e ->
        get_module_file_attribute env "torch" = Raise e
        \/ exists attr,
             get_module_file_attribute env "torch" = Ret attr
             /\ is_dir s (join (dirname attr) "lib") = true
             /\ listdir env (join (dirname attr) "lib") = Raise e)
  /\ (forall binaries attr entries,
        r = Ret binaries ->
        get_module_file_attribute env "torch" = Ret attr ->
        listdir env (join (dirname attr) "lib") = Ret entries ->
        (length binaries <= length entries)%nat).
Proof.
  cbv zeta. split; [apply get_torch_core_binaries_store |].
  unfold get_torch_core_binaries, mbind, M_bind, lift, get, mret, M_ret.
  destruct (get_module_file_attribute env "torch") as [attr|e0]; simpl.
  - destruct (is_dir s _) eqn:Hdir; simpl.
    + destruct (listdir env _) as [entries|e0] eqn:Hls; simpl.
      * split; [done |]. intros binaries attr' entries' [= <-] [= <-].
        rewrite Hls. intros [= <-].
        rewrite collect_filter, length_map. apply List.filter_length_le.
      * split; [|done]. intros e [= <-]. right. by exists attr.
    + split; [done |]. intros binaries attr' entries' [= <-] _ _.
      simpl. lia.
  - split; [|done]. intros e [= <-]. by left.
Qed.

Lemma grows_ret {A} (a : A) : Trace.grows (mret a : M state A).
Proof. by intros s. Qed.

Lemma grows_bind {A B} (m : M state A) (k : A -> M state B) :
  Trace.grows m -> (forall a, Trace.grows (k a)) -> Trace.grows (m ≫= k).
Proof.
  intros Hm Hk s. unfold mbind, M_bind.
  destruct (Hm s) as (Hd & Hf & Hl).
  destruct (m s) as [[a|e] s1]; simpl in *; [|done].
  destruct (Hk a s1) as (Hd' & Hf' & Hl').
  split_and!; by etrans.
Qed.

Lemma grows_lift {A} (r : result A) : Trace.grows (lift r : M state A).
Proof. by intros s. Qed.

Lemma grows_get : Trace.grows (get : M state state).
Proof. by intros s. Qed.

Lemma grows_set_files_copied b : Trace.grows (set_files_copied b).
Proof. by intros s. Qed.

Lemma grows_emit e : Trace.grows (emit e).
Proof. intros s. simpl. split_and!; [done | done |]. by apply prefix_app_r. Qed.

Lemma grows_makedirs p : Trace.grows (makedirs p).
Proof.
  intros s. unfold makedirs.
  match goal with |- context [if ?c then _ else _] => destruct c end;
    [done |].
  simpl. split_and!; [set_solver | done | by apply prefix_app_r].
Qed.

Lemma grows_shutil_copy src dst : Trace.grows (shutil_copy src dst).
Proof.
  intros s. unfold shutil_copy. cbv zeta. destruct (negb _); [done |].
  destruct (String.eqb src _); [done |].
  match goal with
  | |- context [if is_dir ?a ?b then (Raise OSError, _) else _] =>
      destruct (is_dir a b); [done |]
  end.
  match goal with |- context [if ?c then _ else _] => destruct c end;
    [|done].
  simpl. split_and!; [done | set_solver | by apply prefix_app_r].
Qed.

Lemma grows_for_ {A} (l : list A) (body : A -> M state unit) :
  (forall x, Trace.grows (body x)) -> Trace.grows (for_ l body).
Proof.
  intros Hbody. induction l as [|x l IH]; simpl.
  - apply grows_ret.
  - apply grows_bind; [apply Hbody | done].
Qed.

Lemma grows_copy_binary dist_dir f : Trace.grows (copy_binary dist_dir f).
Proof.
  unfold copy_binary.
  apply grows_bind; [apply grows_get |]. intros s.
  apply grows_bind; [|intros _; apply grows_shutil_copy].
  destruct (negb _); [apply grows_makedirs | apply grows_ret].
Qed.

Lemma grows_get_torch_core_binaries :
  Trace.grows (get_torch_core_binaries env).
Proof. intros s. by rewrite get_torch_core_binaries_store. Qed.

(** X6. A call of [considerExtraDlls] never takes anything away: whatever
    its arguments and its outcome, every directory and every file that
    existed before the call exists after it, and the effects logged before
    it are the beginning of the effects logged after it. *)
Theorem considerExtraDlls_grows dist_dir module :
  Trace.grows (considerExtraDlls env dist_dir module).
Proof.
  unfold considerExtraDlls.
  apply grows_bind; [apply grows_get |]. intros s.
  destruct (files_copied s); [apply grows_ret |].
  destruct (String.eqb _ "torch"); [|apply grows_ret].
  apply grows_bind; [apply grows_set_files_copied |]. intros _.
  apply grows_bind; [apply grows_get_torch_core_binaries |].
  intros binaries. destruct (_ =? 0)%nat; [apply grows_ret |].
  repeat (apply grows_bind; [|intros ?]);
    try apply grows_emit; try apply grows_ret.
  apply grows_for_. intros f. apply grows_copy_binary.
Qed.

(** What exists keeps existing under a computation that only adds. *)
Lemma grows_path_exists {A} (m : M state A) s p :
  Trace.grows m -> path_exists s p = true ->
  path_exists (snd (m s)) p = true.
Proof.
  intros Hm. destruct (Hm s) as (Hd & Hf & _). unfold path_exists.
  rewrite !orb_true_iff, !bool_decide_eq_true.
  intros [Hp | Hp]; [left; by apply Hd | right; by apply Hf].
Qed.

(** The first call for [torch]: the flag is set, the binaries are looked
    up, and only a non-empty list leads into the copy loop. *)
Lemma considerExtraDlls_first dist_dir module s :
  files_copied s = false ->
  getFullName module = "torch" ->
  considerExtraDlls env dist_dir module s
  = match fst (get_torch_core_binaries env (Trace.flagged s)) with
    | Raise e => (Raise e, Trace.flagged s)
    | Ret binaries =>
        if (length binaries =? 0)%nat then (Ret tt, Trace.flagged s)
        else (info "";;
              info " Copying files from 'torch/lib':";;
              for_ binaries (copy_binary dist_dir);;
              info (copied_msg (length binaries));;
              mret tt) (Trace.flagged s)
    end.
Proof.
  intros Hflag Htorch. unfold considerExtraDlls.
  unfold mbind at 1. unfold M_bind at 1. unfold get at 1.
  rewrite Hflag, Htorch, String.eqb_refl.
  unfold mbind at 1. unfold M_bind at 1.
  change (set_files_copied true s) with (Ret tt, Trace.flagged s).
  cbv beta iota.
  unfold mbind at 1. unfold M_bind at 1.
  pose proof (get_torch_core_binaries_store (Trace.flagged s)) as Hstore.
  destruct (get_torch_core_binaries env (Trace.flagged s)) as [[bs|e] s1];
    simpl in Hstore; subst s1; [|done].
  cbn [fst]. by destruct (length bs =? 0)%nat.
Qed.

(** One round of the copy loop that comes back has logged the copy it
    asks for, after a [makedirs] exactly when the directory of the
    destination did not exist. *)
Lemma copy_binary_round dist_dir f s s' :
  copy_binary dist_dir f s = (Ret tt, s') ->
  let dir :=
    dirname (join dist_dir
               (PyStr.slice_from (PyStr.find (str_lower (fst f)) "torch")
                  (str_lower (fst f)))) in
  (path_exists s dir = true
   /\ log s' = log s ++ [Trace.copy_of dist_dir f])
  \/ (path_exists s dir = false
      /\ dir ∈ dirs s'
      /\ log s' = log s ++ [MakeDirs dir; Trace.copy_of dist_dir f]).
Proof.
  unfold copy_binary, Trace.copy_of. cbv zeta.
  set (bin_file := str_lower (fst f)).
  set (tar_file := join dist_dir _).
  unfold mbind, M_bind, get.
  destruct (path_exists s (dirname tar_file)) eqn:Hex; cbn [negb].
  - unfold mret, M_ret. intros Hcopy. left. split; [done |].
    by apply shutil_copy_ret.
  - destruct (makedirs (dirname tar_file) s) as [[[]|e] s1] eqn:Hmk; [|done].
    intros Hcopy. right. split; [done |].
    destruct (makedirs_ret _ _ _ Hmk) as [Hdirs Hlog].
    apply Forall_cons in Hdirs as [Hdir _].
    pose proof (grows_shutil_copy bin_file tar_file s1) as (Hd & _ & _).
    rewrite Hcopy in Hd. simpl in Hd. split; [by apply Hd |].
    rewrite (shutil_copy_ret _ _ _ _ Hcopy), Hlog.
    by rewrite <- app_assoc.
Qed.

(** The events of a copy loop that comes back: one copy for each binary,
    in order, nothing but copies and [makedirs] calls, and each of these
    for a directory that did not exist before and is there afterwards, so
    that none is created twice. *)
Lemma copy_loop_events dist_dir binaries s s' :
  for_ binaries (copy_binary dist_dir) s = (Ret tt, s') ->
  exists evs,
    log s' = log s ++ evs
    /\ Trace.copies evs = map (Trace.copy_of dist_dir) binaries
    /\ (length (Trace.made_dirs evs) + length (Trace.copies evs)
        = length evs)%nat
    /\ NoDup (Trace.made_dirs evs)
    /\ forall p, p ∈ Trace.made_dirs evs ->
         path_exists s p = false /\ p ∈ dirs s'.
Proof.
  revert s. induction binaries as [|f binaries IH]; intros s; simpl.
  - intros [= <-]. exists []. rewrite app_nil_r.
    split_and!; try done; [constructor | by intros p ?%elem_of_nil].
  - unfold mbind, M_bind.
    destruct (copy_binary dist_dir f s) as [[[]|e] s1] eqn:Hbody; [|done].
    intros Hrest.
    destruct (IH _ Hrest) as (evs2 & Hlog2 & Hcopies2 & Hlen2 & Hnd2 & Hmd2).
    pose proof (grows_for_ binaries (copy_binary dist_dir)
                  (grows_copy_binary dist_dir) s1) as (Hd1 & _ & _).
    rewrite Hrest in Hd1. simpl in Hd1.
    assert (forall p, path_exists s p = true -> path_exists s1 p = true)
      as Hkeep.
    { intros p Hp.
      pose proof (grows_path_exists (copy_binary dist_dir f) s p
                    (grows_copy_binary dist_dir f) Hp) as Hp1.
      by rewrite Hbody in Hp1. }
    assert (forall p, p ∈ Trace.made_dirs evs2 ->
                      path_exists s p = false /\ p ∈ dirs s') as Hmd2'.
    { intros p [Hp1 Hp']%Hmd2. split; [|done].
      destruct (path_exists s p) eqn:Hp; [|done].
      by rewrite (Hkeep p Hp) in Hp1. }
    destruct (copy_binary_round _ _ _ _ Hbody)
      as [(Hex & Hlog1) | (Hex & Hdir & Hlog1)].
    + exists (Trace.copy_of dist_dir f :: evs2).
      split_and!; try done.
      * rewrite Hlog2, Hlog1, <- app_assoc. done.
      * simpl. by rewrite Hcopies2.
      * simpl. rewrite <- Hlen2. unfold Trace.copy_of. simpl. lia.
    + match type of Hdir with
      | ?dir ∈ _ =>
          exists (MakeDirs dir :: Trace.copy_of dist_dir f :: evs2)
      end.
      split_and!.
      * rewrite Hlog2, Hlog1, <- app_assoc. done.
      * simpl. by rewrite Hcopies2.
      * simpl. rewrite <- Hlen2. unfold Trace.copy_of. simpl. lia.
      * simpl. apply NoDup_cons. split; [|done].
        intros [Hp1 _]%Hmd2.
        unfold path_exists in Hp1. apply orb_false_elim in Hp1 as [Hp1 _].
        by apply bool_decide_eq_false in Hp1.
      * simpl. intros p [-> | Hp]%elem_of_cons; [|by apply Hmd2'].
        split; [done | by apply Hd1].
Qed.

(** X7. There is no second attempt.  When the first call for [torch]
    cannot locate the binaries, because the lookup raises or because it
    finds none, the call logs and copies nothing (the exception, if any,
    goes to the caller), yet it leaves the one-shot flag set: every later
    call returns the empty tuple without looking again. *)
Theorem considerExtraDlls_no_second_attempt dist_dir module s :
  files_copied s = false ->
  getFullName module = "torch" ->
  (forall binaries,
      fst (get_torch_core_binaries env (Trace.flagged s)) = Ret binaries ->
      binaries = []) ->
  considerExtraDlls env dist_dir module s
  = (match fst (get_torch_core_binaries env (Trace.flagged s)) with
     | Raise e => Raise e
     | Ret _ => Ret tt
     end, Trace.flagged s)
  /\ forall calls,
       run_calls env calls (Trace.flagged s)
       = map (Spec.quiet (Trace.flagged s)) calls.
Proof.
  intros Hflag Htorch Hnone. split; [|intros calls; by apply run_calls_copied].
  rewrite considerExtraDlls_first by done.
  destruct (fst (get_torch_core_binaries env (Trace.flagged s)))
    as [binaries|e]; [|done].
  by rewrite (Hnone binaries eq_refl).
Qed.

(** X8. A first call for [torch] that comes back from a non-empty list of
    binaries has logged the two opening lines, then nothing but [makedirs]
    calls and copies, with exactly one copy for each binary, in the order
    of the list and to the destination derived from its path, and last
    the line that counts the binaries. *)
Theorem considerExtraDlls_copies dist_dir module s s' binaries :
  files_copied s = false ->
  getFullName module = "torch" ->
  fst (get_torch_core_binaries env (Trace.flagged s)) = Ret binaries ->
  binaries <> [] ->
  considerExtraDlls env dist_dir module s = (Ret tt, s') ->
  exists evs,
    log s'
    = log s ++ [Info ""; Info " Copying files from 'torch/lib':"] ++ evs
      ++ [Info (copied_msg (length binaries))]
    /\ Trace.copies evs = map (Trace.copy_of dist_dir) binaries
    /\ (length (Trace.made_dirs evs) + length (Trace.copies evs)
        = length evs)%nat.
Proof.
  intros Hflag Htorch Hbins Hne.
  rewrite considerExtraDlls_first, Hbins by done.
  destruct binaries as [|f binaries']; [done |].
  set (binaries := f :: binaries') in *.
  change (length binaries =? 0)%nat with false. cbv iota.
  unfold mbind at 1. unfold M_bind at 1.
  unfold mbind at 1. unfold M_bind at 1.
  unfold mbind at 1. unfold M_bind at 1.
  set (opened := snd ((info "";; info " Copying files from 'torch/lib':")
                        (Trace.flagged s))).
  change (info "" (Trace.flagged s))
    with (Ret tt, snd (info "" (Trace.flagged s))).
  cbv beta iota.
  change (info " Copying files from 'torch/lib':"
            (snd (info "" (Trace.flagged s))))
    with (Ret tt, opened).
  cbv beta iota.
  destruct (for_ binaries (copy_binary dist_dir) opened)
    as [[[]|e] copied] eqn:Hloop; [|done].
  unfold mbind, M_bind, info, emit, modify, mret, M_ret. intros [= <-].
  destruct (copy_loop_events _ _ _ _ Hloop)
    as (evs & Hlog & Hcopies & Hlen & _).
  exists evs. split; [|done]. cbn [log]. rewrite Hlog.
  subst opened. simpl. by rewrite <- !app_assoc.
Qed.

(** X9. The copy reads from the lower-cased path, not from the path that
    was listed.  When no regular file exists under the lower-cased name,
    the round raises [OSError]; it has copied nothing then and has added no
    file (the directory of the destination may have been created). *)
Theorem copy_binary_source_missing dist_dir f s :
  str_lower (fst f) ∉ files s ->
  let '(r, s') := copy_binary dist_dir f s in
  r = Raise OSError
  /\ files s' = files s
  /\ Trace.copies (log s') = Trace.copies (log s).
Proof.
  intros Hsrc. unfold copy_binary. cbv zeta.
  set (bin_file := str_lower (fst f)) in *.
  set (tar_file := join dist_dir _).
  unfold mbind, M_bind, get.
  assert (forall s1, files s1 = files s ->
            shutil_copy bin_file tar_file s1 = (Raise OSError, s1)) as Hcopy.
  { intros s1 Hs1. unfold shutil_copy.
    rewrite Hs1, (bool_decide_eq_false_2 _ Hsrc). done. }
  destruct (path_exists s (dirname tar_file)); cbn [negb].
  - unfold mret, M_ret. by rewrite Hcopy.
  - unfold makedirs.
    match goal with |- context [if ?c then _ else _] => destruct c end;
      [done |].
    rewrite Hcopy by done. simpl. split_and!; try done.
    unfold Trace.copies. by rewrite List.filter_app, app_nil_r.
Qed.

Lemma find_lower_bound s sub : -1 <= PyStr.find s sub.
Proof.
  induction s as [|c s IH]; cbn [PyStr.find].
  - destruct (PyStr.startswith "" sub); lia.
  - destruct (PyStr.startswith _ sub); [lia |].
    destruct (Z.ltb_spec (PyStr.find s sub) 0); lia.
Qed.

(** Python's [s[-1:]]: the last character, or nothing of the empty
    string. *)
Lemma slice_from_minus_one s :
  PyStr.slice_from (-1) s = PyStr.drop (String.length s - 1) s.
Proof.
  unfold PyStr.slice_from. cbn [Z.ltb Z.compare].
  f_equal. lia.
Qed.

(** X10. The slice counts on [torch] being found.  When [find] reports
    that the lower-cased path, taken to be ASCII, contains no [torch], the
    index is -1 and the slice is the last character of the path: a round
    that comes back has then called [shutil.copy] with the dist directory
    joined with that one character as its destination. *)
Theorem copy_binary_without_torch dist_dir f s s' :
  let bin_file := str_lower (fst f) in
  PyStr.is_ascii bin_file = true ->
  PyStr.find bin_file "torch" = -1 ->
  copy_binary dist_dir f s = (Ret tt, s') ->
  last (log s')
  = Some (Copy bin_file
            (join dist_dir
               (PyStr.drop (String.length bin_file - 1) bin_file))).
Proof.
  intros bin_file _ Hfind Hrun.
  rewrite <- slice_from_minus_one, <- Hfind.
  destruct (copy_binary_round _ _ _ _ Hrun)
    as [(_ & ->) | (_ & _ & ->)].
  - by rewrite last_snoc.
  - change [MakeDirs ?d; ?c] with ([MakeDirs d] ++ [c]).
    by rewrite app_assoc, last_snoc.
Qed.

(** X11. No directory is created twice.  In a copy loop that comes back,
    every [makedirs] call is for a directory that did not exist when the
    loop began and that exists when it ends, and no two calls are for the
    same directory. *)
Theorem copy_loop_makedirs_once dist_dir binaries s s' :
  for_ binaries (copy_binary dist_dir) s = (Ret tt, s') ->
  exists evs,
    log s' = log s ++ evs
    /\ NoDup (Trace.made_dirs evs)
    /\ forall p, p ∈ Trace.made_dirs evs ->
         path_exists s p = false /\ p ∈ dirs s'.
Proof.
  intros Hloop.
  destruct (copy_loop_events _ _ _ _ Hloop)
    as (evs & Hlog & _ & _ & Hnd & Hmd).
  by exists evs.
Qed.

End TorchEffects.


(** ** TorchPlugin.considerExtraDlls: where each binary is copied to *)

Section PosixDirname.

Lemma posix_head_tail p :
  fst (Posix.head_tail p) +:+ snd (Posix.head_tail p) = p.
Proof.
  induction p as [|c p IH]; [done |]. simpl.
  destruct (Posix.head_tail p) as [h t]. simpl in *.
  destruct (String.eqb_spec h "") as [-> | Hh]; simpl.
  - rewrite append_nil_l in IH. subst t.
    destruct (Ascii.eqb_spec c Posix.sep); by simpl.
  - by rewrite append_cons, IH.
Qed.

Lemma posix_rstrip s : exists r, s = Posix.rstrip s +:+ r.
Proof.
  induction s as [|c s [r IH]]; [by exists "" |]. simpl.
  destruct (String.eqb (Posix.rstrip s) "" && Ascii.eqb c Posix.sep).
  - by exists (String c s).
  - exists r. by rewrite append_cons, <- IH.
Qed.

(** [posixpath.dirname] returns a prefix of its argument: the argument
    itself or something shorter. *)
Lemma posix_dirname_shorter p :
  Posix.dirname p = p
  \/ (String.length (Posix.dirname p) < String.length p)%nat.
Proof.
  assert (exists r, p = Posix.dirname p +:+ r) as [r Hr].
  { unfold Posix.dirname. pose proof (posix_head_tail p) as Hp.
    destruct (negb _ && negb _).
    - destruct (posix_rstrip (fst (Posix.head_tail p))) as [r Hr].
      exists (r +:+ snd (Posix.head_tail p)).
      by rewrite <- append_assoc, <- Hr.
    - by eexists. }
  destruct r as [|c r].
  - left. by rewrite append_nil_r in Hr.
  - right. rewrite Hr at 2. rewrite length_append. simpl. lia.
Qed.

End PosixDirname.

Section Destinations.

Context {os_path : OsPath} {interp : Interpreter}.
Variable env : TorchPlugin.environment.

(** [os.path.dirname] returns its argument or something shorter; in
    [posixpath] and in [ntpath] alike it returns a prefix of it. *)
Hypothesis dirname_shorter :
  forall p,
    dirname p = p \/ (String.length (dirname p) < String.length p)%nat.

Import TorchPlugin.

Lemma iter_dirname_fixed p n : dirname p = p -> Nat.iter n dirname p = p.
Proof. intros Hp. induction n as [|n IH]; simpl; [done | by rewrite IH]. Qed.

Lemma iter_dirname_empty n : Nat.iter n dirname "" = "".
Proof.
  apply iter_dirname_fixed.
  destruct (dirname_shorter "") as [? | Hlt]; [done |]. simpl in Hlt. lia.
Qed.

Lemma iter_dirname_succ n p :
  Nat.iter (S n) dirname p = Nat.iter n dirname (dirname p).
Proof. induction n as [|n IH]; [done |]. simpl in *. by rewrite IH. Qed.

(** The list that [makedirs] works through holds every directory that
    repeated [dirname] leads to. *)
Lemma iter_dirname_parents fuel p n :
  (String.length p <= fuel)%nat ->
  Nat.iter n dirname p <> "" ->
  Nat.iter n dirname p ∈ p :: parents fuel p.
Proof.
  revert p n. induction fuel as [|fuel IH]; intros p n Hlen Hne.
  - destruct p; [|simpl in Hlen; lia]. by rewrite iter_dirname_empty in Hne.
  - destruct n as [|n]; [apply list_elem_of_here |].
    rewrite iter_dirname_succ in *. cbn [parents].
    destruct (String.eqb_spec (dirname p) "") as [Hempty | Hnonempty].
    { rewrite Hempty, iter_dirname_empty in Hne. done. }
    destruct (String.eqb_spec (dirname p) p) as [Hfixed | Hmoves]; simpl.
    { rewrite Hfixed, (iter_dirname_fixed p n Hfixed).
      apply list_elem_of_here. }
    apply list_elem_of_further, IH; [|done].
    destruct (dirname_shorter p); [done | lia].
Qed.

Lemma intermediate_ancestors a dir :
  Spec.intermediate a dir -> a ∈ dir :: ancestors dir.
Proof.
  intros [Ha [n ->]]. by apply iter_dirname_parents.
Qed.

(** One round of the copy loop that comes back has copied its file as
    described. *)
Lemma copy_binary_copied dist_dir f s s' :
  0 < PyStr.find (str_lower (fst f)) "torch" ->
  copy_binary dist_dir f s = (Ret tt, s') ->
  Spec.copied dist_dir f s s'.
Proof.
  intros Hidx. unfold copy_binary, Spec.copied. cbv zeta.
  set (bin_file := str_lower (fst f)) in *.
  set (back_end := PyStr.slice_from _ bin_file).
  set (dir := dirname (join dist_dir back_end)).
  unfold mbind, M_bind, get.
  assert (Spec.tail_from_torch bin_file back_end) as Htail
    by (apply slice_from_find_torch; lia).
  destruct (path_exists s dir) eqn:Hex; cbn [negb].
  - unfold mret, M_ret. intros Hcopy.
    exists back_end, s. fold dir. rewrite Hex.
    repeat split; try done.
    by rewrite (shutil_copy_ret _ _ _ _ Hcopy).
  - destruct (makedirs dir s) as [[[]|e] s1] eqn:Hmk; [|done].
    intros Hcopy. destruct (makedirs_ret _ _ _ Hmk) as [Hdirs Hlog].
    exists back_end, s1. fold dir. rewrite Hex.
    split; [done |]. split; [split; [done |] | split; [done |]].
    + intros a Ha%intermediate_ancestors.
      rewrite Forall_forall in Hdirs. by apply Hdirs.
    + rewrite (shutil_copy_ret _ _ _ _ Hcopy), Hlog.
      by rewrite <- app_assoc.
Qed.

(** The loop ends as its last round does. *)
Lemma for_rounds dist_dir binaries s :
  for_ binaries (copy_binary dist_dir) s
  = match last (rounds dist_dir binaries s) with
    | Some (_, _, r, s') => (r, s')
    | None => (Ret tt, s)
    end.
Proof.
  revert s. induction binaries as [|f binaries IH]; intros s; [done |].
  cbn [for_ rounds]. unfold mbind, M_bind.
  destruct (copy_binary dist_dir f s) as [[[]|e] s1]; [|done].
  rewrite IH.
  destruct (rounds dist_dir binaries s1) as [|y l]; [done |].
  rewrite last_cons_cons.
  destruct (last (y :: l)) as [[[[? ?] ?] ?]|] eqn:Hlast; [done |].
  by apply last_None in Hlast.
Qed.

(** Each round in the trace is a run of the loop body. *)
Lemma rounds_In dist_dir binaries s f before r after :
  In (f, before, r, after) (rounds dist_dir binaries s) ->
  In f binaries /\ copy_binary dist_dir f before = (r, after).
Proof.
  revert s. induction binaries as [|f' binaries IH]; intros s; [done |].
  cbn [rounds].
  destruct (copy_binary dist_dir f' s) as [r' s1] eqn:Hbody.
  intros [[= <- <- <- <-] | Hin]; [split; [by left | done] |].
  destruct r' as [[]|e]; [|done].
  destruct (IH _ Hin) as [Hf Hrun]. split; [by right | done].
Qed.

(** The first round of the trace is the loop body run on the first
    binary. *)
Lemma rounds_first dist_dir f rest s s' :
  copy_binary dist_dir f s = (Ret tt, s') ->
  In (f, s, Ret tt, s') (rounds dist_dir (f :: rest) s).
Proof. intros Hrun. cbn [rounds]. rewrite Hrun. by left. Qed.

(** C5. In a first call of [considerExtraDlls] for [torch] that has found
    binaries, the outcome of the call is the outcome of the rounds of its
    copy loop, one round for each binary until one raises.  Every round
    that comes back, for a binary whose lower-cased path has [torch] at a
    positive index, has copied that file to the dist directory joined with
    the tail of the lower-cased path from the first [torch] on; and where
    the directory of this destination did not exist, [makedirs] ran before
    the copy, so that this directory and every directory above it, as
    repeated [dirname] leads to them, was in place when the copy was
    made. *)
Theorem considerExtraDlls_destinations dist_dir module s binaries :
  files_copied s = false ->
  getFullName module = "torch" ->
  fst (get_torch_core_binaries env (Trace.flagged s)) = Ret binaries ->
  binaries <> [] ->
  let opened :=
    snd ((info "";; info " Copying files from 'torch/lib':")
           (Trace.flagged s)) in
  let trace := rounds dist_dir binaries opened in
  considerExtraDlls env dist_dir module s
  = match last trace with
    | Some (_, _, Raise e, s') => (Raise e, s')
    | Some (_, _, Ret _, s') =>
        (Ret tt, snd (info (copied_msg (length binaries)) s'))
    | None => (Ret tt, snd (info (copied_msg (length binaries)) opened))
    end
  /\ forall f before after,
       In (f, before, Ret tt, after) trace ->
       0 < PyStr.find (str_lower (fst f)) "torch" ->
       In f binaries /\ Spec.copied dist_dir f before after.
Proof.
  intros Hflag Htorch Hbins Hne opened trace. split.
  - rewrite considerExtraDlls_first, Hbins by done.
    destruct binaries as [|f0 binaries']; [done |].
    set (bs := f0 :: binaries') in *.
    change (length bs =? 0)%nat with false. cbv iota.
    unfold mbind at 1. unfold M_bind at 1.
    unfold mbind at 1. unfold M_bind at 1.
    unfold mbind at 1. unfold M_bind at 1.
    change (info "" (Trace.flagged s))
      with (Ret tt, snd (info "" (Trace.flagged s))).
    cbv beta iota.
    change (info " Copying files from 'torch/lib':"
              (snd (info "" (Trace.flagged s))))
      with (Ret tt, opened).
    cbv beta iota. rewrite for_rounds. fold trace.
    destruct (last trace) as [[[[f before] [[]|e]] after]|]; done.
  - intros f before after [Hf Hrun]%rounds_In Hidx.
    split; [done | by apply copy_binary_copied].
Qed.

End Destinations.

(** A run in which the rounds differ.  The first binary has [torch] in
    its name only and is copied as [/out/dist/torch.so], into the dist
    directory that [makedirs] creates for it; the second is not found under
    its lower-cased name, and with its round the call raises. *)
Lemma considerExtraDlls_destinations_witness :
  fst (TorchPlugin.considerExtraDlls (os_path := Posix.os_path)
         (interp := c_locale) Mishap.mixed_env "/out/dist"
         Example.torch_module Mishap.mixed)
  = Raise OSError
  /\ In ("/opt/lib/libtorch.so", ".")
        [("/opt/lib/libtorch.so", "."); ("/opt/lib/C10.so", ".")]
  /\ Spec.copied (os_path := Posix.os_path) (interp := c_locale) "/out/dist"
       ("/opt/lib/libtorch.so", ".")
       (snd ((TorchPlugin.info "";;
              TorchPlugin.info " Copying files from 'torch/lib':")
               (Trace.flagged Mishap.mixed)))
       (snd (TorchPlugin.copy_binary (os_path := Posix.os_path)
                                     (interp := c_locale) "/out/dist"
               ("/opt/lib/libtorch.so", ".")
               (snd ((TorchPlugin.info "";;
                      TorchPlugin.info " Copying files from 'torch/lib':")
                       (Trace.flagged Mishap.mixed))))).
Proof.
  pose proof (considerExtraDlls_destinations (os_path := Posix.os_path)
                (interp := c_locale) Mishap.mixed_env posix_dirname_shorter
                "/out/dist" Example.torch_module Mishap.mixed
                [("/opt/lib/libtorch.so", "."); ("/opt/lib/C10.so", ".")]
                ltac:(vm_compute; reflexivity)
                ltac:(vm_compute; reflexivity)
                ltac:(vm_compute; reflexivity)
                ltac:(discriminate)) as Hcall.
  cbv zeta in Hcall. destruct Hcall as [Hcall Hrounds]. split.
  - rewrite Hcall. vm_compute. reflexivity.
  - apply (Hrounds ("/opt/lib/libtorch.so", ".") _ _).
    + apply rounds_first. vm_compute. reflexivity.
    + vm_compute. reflexivity.
Defined.

Example considerExtraDlls_mixed_run :
  TorchPlugin.path_exists
    (snd (TorchPlugin.considerExtraDlls (os_path := Posix.os_path)
            (interp := c_locale) Mishap.mixed_env "/out/dist"
            Example.torch_module Mishap.mixed))
    "/out/dist/torch.so" = true
  /\ TorchPlugin.is_dir
       (snd (TorchPlugin.considerExtraDlls (os_path := Posix.os_path)
               (interp := c_locale) Mishap.mixed_env "/out/dist"
               Example.torch_module Mishap.mixed))
       "/out/dist" = true
  /\ TorchPlugin.is_dir Mishap.mixed "/out/dist" = false.
Proof. split_and!; vm_compute; reflexivity. Qed.

(** ** pybench/Dict.py on any dictionary *)

Section DictRounds.

(** A round that brings every store into one that it leaves alone does,
    repeated, what it does once. *)
Lemma for_range_settled {S} (body : M S unit) (f : S -> S) :
  (forall d, body d = (Ret tt, f d)) ->
  (forall d, f (f d) = f d) ->
  forall n d, (0 < n)%N -> for_range n body d = (Ret tt, f d).
Proof.
  intros Hbody Hf n. induction n as [|n IH] using N.peano_ind; [lia |].
  intros d _. rewrite for_range_succ. unfold mbind, M_bind. rewrite Hbody.
  destruct (N.eq_dec n 0%N) as [-> | Hn].
  - done.
  - rewrite IH by lia. by rewrite Hf.
Qed.

End DictRounds.

Section SimpleDictAny.

Import SimpleDictManipulation.

Local Open Scope Z_scope.

Lemma bind_run {S A B} (m : M S A) (k : A -> M S B) s a s' :
  m s = (Ret a, s') -> (m ≫= k) s = k a s'.
Proof. intros Hm. unfold mbind, M_bind. by rewrite Hm. Qed.

(** With the keys 0 to 5 present no lookup fails. *)
Lemma simple_lookups (d : gmap Z Z) :
  (forall k, 0 <= k <= 5 -> is_Some (d !! k)) -> lookups d = (Ret tt, d).
Proof.
  intros Hd.
  destruct (Hd 0 ltac:(lia)) as [v0 H0], (Hd 1 ltac:(lia)) as [v1 H1],
    (Hd 2 ltac:(lia)) as [v2 H2], (Hd 3 ltac:(lia)) as [v3 H3],
    (Hd 4 ltac:(lia)) as [v4 H4], (Hd 5 ltac:(lia)) as [v5 H5].
  unfold lookups, mbind, M_bind, getitem, mret, M_ret, dict.
  by rewrite H0, H1, H2, H3, H4, H5.
Qed.

(** With the keys 0 to 5 present no deletion fails. *)
Lemma simple_deletions (d : gmap Z Z) :
  (forall k, 0 <= k <= 5 -> is_Some (d !! k)) ->
  deletions d
  = (Ret tt,
     delete 5 (delete 4 (delete 3 (delete 2 (delete 1 (delete 0 d)))))).
Proof.
  intros Hd.
  destruct (Hd 0 ltac:(lia)) as [v0 H0], (Hd 1 ltac:(lia)) as [v1 H1],
    (Hd 2 ltac:(lia)) as [v2 H2], (Hd 3 ltac:(lia)) as [v3 H3],
    (Hd 4 ltac:(lia)) as [v4 H4], (Hd 5 ltac:(lia)) as [v5 H5].
  unfold deletions, mbind, M_bind, delitem, dict.
  rewrite H0. cbv beta iota. rewrite !lookup_delete_ne, H1 by done.
  cbv beta iota. rewrite !lookup_delete_ne, H2 by done.
  cbv beta iota. rewrite !lookup_delete_ne, H3 by done.
  cbv beta iota. rewrite !lookup_delete_ne, H4 by done.
  cbv beta iota. by rewrite !lookup_delete_ne, H5 by done.
Qed.

Lemma simple_group_any (d : gmap Z Z) :
  group d
  = (Ret tt,
     d ∖ (list_to_map [(0, 3); (1, 4); (2, 5); (3, 3); (4, 4); (5, 5)]
            : gmap Z Z)).
Proof.
  unfold group.
  erewrite bind_run; [|reflexivity]. cbv beta. unfold dict.
  set (d6 := <[5:=5]> _).
  assert (forall k, 0 <= k <= 5 -> is_Some (d6 !! k)) as Hd6.
  { intros k Hk. subst d6.
    repeat (rewrite lookup_insert; case_decide; [by eexists |]). lia. }
  erewrite bind_run; [|by apply simple_lookups].
  erewrite bind_run; [|reflexivity].
  rewrite simple_deletions by done.
  f_equal. apply map_eq. intros k. subst d6.
  rewrite lookup_difference. simpl.
  repeat (rewrite lookup_delete || rewrite lookup_insert).
  rewrite lookup_empty.
  repeat case_decide; subst; done.
Qed.

Lemma difference_twice (d a : gmap Z Z) : (d ∖ a) ∖ a = d ∖ a.
Proof.
  apply map_eq. intros k. rewrite !lookup_difference.
  by destruct (a !! k).
Qed.

(** X12. One round of [SimpleDictManipulation.test] works on any
    dictionary: whatever [d] holds when the round begins, no lookup and no
    deletion raises [KeyError], and the round ends with [d] stripped of the
    keys 0 to 5 and otherwise as it was; so does the loop after any
    positive number of rounds. *)
Theorem simple_dict_manipulation_any (d : gmap Z Z) :
  let assigned : gmap Z Z :=
    list_to_map [(0, 3); (1, 4); (2, 5); (3, 3); (4, 4); (5, 5)] in
  body d = (Ret tt, d ∖ assigned)
  /\ (forall n : N, (0 < n)%N -> for_range n body d = (Ret tt, d ∖ assigned))
  /\ (forall k, snd (body d) !! k
                = if bool_decide (0 <= k <= 5) then None else d !! k).
Proof.
  intros assigned.
  assert (forall d' : gmap Z Z, body d' = (Ret tt, d' ∖ assigned)) as Hbody.
  { intros d'. unfold body.
    do 4 (erewrite bind_run; [|apply simple_group_any]).
    rewrite simple_group_any. fold assigned.
    by rewrite !difference_twice. }
  split_and!.
  - apply Hbody.
  - intros n Hn. apply (for_range_settled body (fun d' => d' ∖ assigned));
      [done | intros; apply difference_twice | done].
  - intros k. rewrite Hbody. cbn [snd]. unfold dict.
    rewrite lookup_difference.
    subst assigned. cbn [list_to_map foldr uncurry fst snd].
    repeat rewrite lookup_insert. rewrite lookup_empty.
    repeat case_decide; try done; case_bool_decide; try done; lia.
Qed.

End SimpleDictAny.

Section IntegerKeys.

Import PyDict DictWithIntegerKeys.

Local Open Scope Z_scope.

Lemma integer_group_any (d : gmap Z Z) : group d = (Ret tt, filled ∪ d).
Proof.
  unfold group. erewrite bind_run; [|reflexivity]. cbv beta.
  set (d6 := <[6:=6]> _).
  assert (d6 = filled ∪ d) as Hd6.
  { subst d6. apply map_eq. intros k. rewrite lookup_union. unfold filled.
    cbn [list_to_map foldr uncurry fst snd].
    repeat rewrite lookup_insert. rewrite lookup_empty.
    repeat case_decide; try congruence; by destruct (d !! k). }
  unfold lookups, mbind, M_bind, getitem, mret, M_ret.
  replace (d6 !! 1) with (Some 1); [|rewrite Hd6; symmetry; by apply lookup_union_Some_l].
  replace (d6 !! 2) with (Some 2); [|rewrite Hd6; symmetry; by apply lookup_union_Some_l].
  replace (d6 !! 3) with (Some 3); [|rewrite Hd6; symmetry; by apply lookup_union_Some_l].
  replace (d6 !! 4) with (Some 4); [|rewrite Hd6; symmetry; by apply lookup_union_Some_l].
  replace (d6 !! 5) with (Some 5); [|rewrite Hd6; symmetry; by apply lookup_union_Some_l].
  replace (d6 !! 6) with (Some 6); [|rewrite Hd6; symmetry; by apply lookup_union_Some_l].
  by rewrite Hd6.
Qed.

Lemma union_twice `{Countable K} (a d : gmap K Z) : a ∪ (a ∪ d) = a ∪ d.
Proof. by rewrite (assoc_L (∪)), (idemp_L (∪)). Qed.

(** X13. A round of [DictWithIntegerKeys.test] works on any dictionary:
    every lookup finds its key, whatever the dictionary held before, and
    the round leaves the six entries for the keys 1 to 6 stored over it,
    as does the loop after any positive number of rounds; [test] itself
    ends with exactly these six entries. *)
Theorem dict_with_integer_keys_any :
  (forall d : gmap Z Z, body d = (Ret tt, filled ∪ d))
  /\ (forall (n : N) (d : gmap Z Z),
        (0 < n)%N -> loop n d = (Ret tt, filled ∪ d))
  /\ test = (Ret tt, filled).
Proof.
  assert (forall d : gmap Z Z, body d = (Ret tt, filled ∪ d)) as Hbody.
  { intros d. unfold body.
    do 4 (erewrite bind_run; [|apply integer_group_any]).
    rewrite integer_group_any. by rewrite !union_twice. }
  assert (forall (n : N) (d : gmap Z Z),
            (0 < n)%N -> loop n d = (Ret tt, filled ∪ d)) as Hloop.
  { intros n d Hn.
    apply (for_range_settled body (fun d' => filled ∪ d'));
      [done | intros; apply union_twice | done]. }
  split_and!; [done | done |].
  unfold test. rewrite Hloop by done. by rewrite (right_id_L ∅ (∪)).
Qed.

End IntegerKeys.

Section StringKeys.

Import PyDict DictWithStringKeys.

Lemma string_group_any (d : gmap string Z) :
  group d = (Ret tt, filled ∪ d).
Proof.
  unfold group. erewrite bind_run; [|reflexivity]. cbv beta.
  set (d6 := <["pqr":=6]> _).
  assert (d6 = filled ∪ d) as Hd6.
  { subst d6. apply map_eq. intros k. rewrite lookup_union. unfold filled.
    cbn [list_to_map foldr uncurry fst snd].
    repeat rewrite lookup_insert. rewrite lookup_empty.
    repeat case_decide; try congruence; by destruct (d !! k). }
  unfold lookups, mbind, M_bind, getitem, mret, M_ret.
  replace (d6 !! "abc") with (Some 1); [|rewrite Hd6; symmetry; by apply lookup_union_Some_l].
  replace (d6 !! "def") with (Some 2); [|rewrite Hd6; symmetry; by apply lookup_union_Some_l].
  replace (d6 !! "ghi") with (Some 3); [|rewrite Hd6; symmetry; by apply lookup_union_Some_l].
  replace (d6 !! "jkl") with (Some 4); [|rewrite Hd6; symmetry; by apply lookup_union_Some_l].
  replace (d6 !! "mno") with (Some 5); [|rewrite Hd6; symmetry; by apply lookup_union_Some_l].
  replace (d6 !! "pqr") with (Some 6); [|rewrite Hd6; symmetry; by apply lookup_union_Some_l].
  by rewrite Hd6.
Qed.

(** X14. A round of [DictWithStringKeys.test] works on any dictionary:
    every lookup finds its key, whatever the dictionary held before, and
    the round leaves the six entries for [abc] to [pqr] stored over it,
    as does the loop after any positive number of rounds; [test] itself
    ends with exactly these six entries. *)
Theorem dict_with_string_keys_any :
  (forall d : gmap string Z, body d = (Ret tt, filled ∪ d))
  /\ (forall (n : N) (d : gmap string Z),
        (0 < n)%N -> loop n d = (Ret tt, filled ∪ d))
  /\ test = (Ret tt, filled).
Proof.
  assert (forall d : gmap string Z, body d = (Ret tt, filled ∪ d)) as Hbody.
  { intros d. unfold body.
    do 4 (erewrite bind_run; [|apply string_group_any]).
    rewrite string_group_any. by rewrite !union_twice. }
  assert (forall (n : N) (d : gmap string Z),
            (0 < n)%N -> loop n d = (Ret tt, filled ∪ d)) as Hloop.
  { intros n d Hn.
    apply (for_range_settled body (fun d' => filled ∪ d'));
      [done | intros; apply union_twice | done]. }
  split_and!; [done | done |].
  unfold test. rewrite Hloop by done. by rewrite (right_id_L ∅ (∪)).
Qed.

End StringKeys.

(** ** The further properties at work *)

Lemma get_torch_core_binaries_reads_only_witness :
  TorchPlugin.get_module_file_attribute Mishap.no_torch "torch"
  = Raise AttributeError
  \/ exists attr,
       TorchPlugin.get_module_file_attribute Mishap.no_torch "torch"
       = Ret attr
       /\ TorchPlugin.is_dir Example.start
            (@join Posix.os_path (@dirname Posix.os_path attr) "lib") = true
       /\ TorchPlugin.listdir Mishap.no_torch
            (@join Posix.os_path (@dirname Posix.os_path attr) "lib")
          = Raise AttributeError.
Proof.
  exact (proj1 (proj2 (get_torch_core_binaries_reads_only
                         (os_path := Posix.os_path)
                         Mishap.no_torch Example.start))
           AttributeError eq_refl).
Defined.

Lemma considerExtraDlls_no_second_attempt_witness :
  TorchPlugin.considerExtraDlls (os_path := Posix.os_path) (interp := c_locale)
    Mishap.no_torch "/out" Example.torch_module Example.start
  = (Raise AttributeError, Trace.flagged Example.start)
  /\ TorchPlugin.run_calls (os_path := Posix.os_path)
                           (interp := c_locale) Mishap.no_torch
       [("/out", Example.torch_module)] (Trace.flagged Example.start)
     = [(Ret tt, Trace.flagged Example.start)].
Proof.
  destruct (considerExtraDlls_no_second_attempt (os_path := Posix.os_path)
                                                (interp := c_locale)
              Mishap.no_torch "/out" Example.torch_module Example.start
              eq_refl eq_refl
              ltac:(intros binaries Hb; discriminate Hb))
    as [Hcall Hlater].
  split; [exact Hcall | exact (Hlater [("/out", Example.torch_module)])].
Defined.

Lemma considerExtraDlls_copies_witness :
  exists evs,
    TorchPlugin.log
      (snd (TorchPlugin.considerExtraDlls (os_path := Posix.os_path)
                                          (interp := c_locale)
              Example.env "/out" Example.torch_module Example.start))
    = TorchPlugin.log Example.start
      ++ [Info ""; Info " Copying files from 'torch/lib':"] ++ evs
      ++ [Info (TorchPlugin.copied_msg 3)]
    /\ Trace.copies evs
       = [Copy "/site/torch/lib/c10.dll" "/out/torch/lib/c10.dll";
          Copy "/site/torch/lib/torch.dll" "/out/torch/lib/torch.dll";
          Copy "/site/torch/lib/thc.h" "/out/torch/lib/thc.h"]
    /\ (length (Trace.made_dirs evs) + length (Trace.copies evs)
        = length evs)%nat.
Proof.
  apply (considerExtraDlls_copies (os_path := Posix.os_path)
                                  (interp := c_locale)
           Example.env "/out" Example.torch_module Example.start _
           [("/site/torch/lib/c10.dll", ".");
            ("/site/torch/lib/torch.dll", ".");
            ("/site/torch/lib/thc.h", ".")]).
  - reflexivity.
  - reflexivity.
  - vm_compute; reflexivity.
  - discriminate.
  - vm_compute; reflexivity.
Defined.

Lemma copy_binary_source_missing_witness :
  fst (TorchPlugin.copy_binary (os_path := Posix.os_path)
                               (interp := c_locale) "/out"
         ("/Site/torch/lib/C10.dll", ".") Mishap.capitals)
  = Raise OSError.
Proof.
  pose proof (copy_binary_source_missing (os_path := Posix.os_path)
                                         (interp := c_locale) "/out"
                ("/Site/torch/lib/C10.dll", ".") Mishap.capitals
                ltac:(apply (proj1 (bool_decide_eq_false _));
                      vm_compute; reflexivity))
    as Hmissing.
  destruct (TorchPlugin.copy_binary "/out" ("/Site/torch/lib/C10.dll", ".")
              Mishap.capitals) as [r s'].
  exact (proj1 Hmissing).
Defined.

Lemma copy_binary_without_torch_witness :
  last (TorchPlugin.log
          (snd (TorchPlugin.copy_binary (os_path := Posix.os_path)
                                        (interp := c_locale) "/out"
                  ("/opt/lib/c10.dll", ".") Mishap.elsewhere)))
  = Some (Copy "/opt/lib/c10.dll" "/out/l").
Proof.
  apply (copy_binary_without_torch (os_path := Posix.os_path)
                                   (interp := c_locale) "/out"
           ("/opt/lib/c10.dll", ".") Mishap.elsewhere).
  - reflexivity.
  - reflexivity.
  - vm_compute; reflexivity.
Defined.

Lemma copy_loop_makedirs_once_witness :
  exists evs,
    TorchPlugin.log
      (snd (for_ [("/site/torch/lib/c10.dll", ".");
                  ("/site/torch/lib/thc.h", ".")]
              (TorchPlugin.copy_binary (os_path := Posix.os_path)
                                       (interp := c_locale) "/out")
              Example.start))
    = TorchPlugin.log Example.start ++ evs
    /\ NoDup (Trace.made_dirs evs).
Proof.
  destruct (copy_loop_makedirs_once (os_path := Posix.os_path)
                                    (interp := c_locale) "/out"
              [("/site/torch/lib/c10.dll", ".");
               ("/site/torch/lib/thc.h", ".")]
              Example.start _ ltac:(vm_compute; reflexivity))
    as (evs & Hlog & Hnd & _).
  exists evs. split; [exact Hlog | exact Hnd].
Defined.

Lemma simple_dict_manipulation_any_witness :
  for_range 2 SimpleDictManipulation.body {[ 3 := 9; 7 := 1 ]}
  = (Ret tt, {[ 7 := 1 ]}).
Proof.
  rewrite (proj1 (proj2 (simple_dict_manipulation_any {[ 3 := 9; 7 := 1 ]}))
             2%N eq_refl).
  vm_compute. reflexivity.
Defined.

Lemma dict_with_integer_keys_any_witness :
  DictWithIntegerKeys.loop 2 {[ 3 := 9; 7 := 1 ]}
  = (Ret tt, {[ 1 := 1; 2 := 2; 3 := 3; 4 := 4; 5 := 5; 6 := 6; 7 := 1 ]}).
Proof.
  rewrite (proj1 (proj2 dict_with_integer_keys_any) 2%N
             {[ 3 := 9; 7 := 1 ]} eq_refl).
  vm_compute. reflexivity.
Defined.

Lemma dict_with_string_keys_any_witness :
  DictWithStringKeys.loop 2 {[ "abc" := 9; "xyz" := 1 ]}
  = (Ret tt,
     {[ "abc" := 1; "def" := 2; "ghi" := 3; "jkl" := 4; "mno" := 5;
        "pqr" := 6; "xyz" := 1 ]}).
Proof.
  rewrite (proj1 (proj2 dict_with_string_keys_any) 2%N
             {[ "abc" := 9; "xyz" := 1 ]} eq_refl).
  vm_compute. reflexivity.
Defined.
